(** * shuttletracker: the updater's update cycle

    A shallow embedding of [updater/updater.go]: record parsing with the
    fixed field grammar, timestamp reconstruction ([itrakTimeDate]),
    duplicate detection, the route guesser ([GuessRouteForVehicle]) and
    the cycle around them ([update], [Run]).

    Conventions.
    - [float64] is Rocq's primitive binary64 [float]; [math.Inf(0)] is
      [infinity].
    - [int64] identifiers are [Z] (no arithmetic is done on them).
    - Go strings are [string] (sequences of bytes).
    - [map[int64]float64] is [gmap Z float]; the order in which [range]
      yields its keys is an explicit argument, since Go leaves it
      unspecified.
    - [shuttletracker.ModelService] is an interface: a class of operations
      over an abstract store.
    - What a call takes from outside (the answer to the request, the
      instants [time.Now()] gives) is an explicit argument. *)

From Stdlib Require Import ZArith Lia List Bool Ascii String.
From Stdlib Require Import Floats Uint63.
From stdpp Require Import base option list strings gmap.

Import ListNotations.
Local Open Scope Z_scope.

#[local] Set Warnings "-inexact-float,-clear-no-such-hyp".

(** ** binary64 *)

Module F64.

(** [rank] embeds the non-NaN values in triples ordered
    lexicographically; [SFcompare] is the comparison of ranks. *)
Definition rank (x : spec_float) : Z * Z * Z :=
  match x with
  | S754_infinity true => (-2, 0, 0)
  | S754_finite true m e => (-1, - e, - Z.pos m)
  | S754_zero _ => (0, 0, 0)
  | S754_nan => (0, 0, 0)
  | S754_finite false m e => (1, e, Z.pos m)
  | S754_infinity false => (2, 0, 0)
  end.

Definition lexlt (a b : Z * Z * Z) : Prop :=
  let '(a1, a2, a3) := a in
  let '(b1, b2, b3) := b in
  a1 < b1 \/ (a1 = b1 /\ (a2 < b2 \/ (a2 = b2 /\ a3 < b3))).

Definition rank_cmp (a b : Z * Z * Z) : comparison :=
  let '(a1, a2, a3) := a in
  let '(b1, b2, b3) := b in
  match a1 ?= b1 with
  | Lt => Lt
  | Gt => Gt
  | Eq => match a2 ?= b2 with
          | Lt => Lt
          | Gt => Gt
          | Eq => a3 ?= b3
          end
  end.

(** [+Inf] and NaN: the two values that compare strictly below no value,
    and that no addition of a distance brings back to a finite sum. *)
Definition bad (x : float) : Prop :=
  Prim2SF x = S754_infinity false \/ Prim2SF x = S754_nan.

(** Sign bit clear, or NaN. *)
Definition not_neg (x : spec_float) : Prop :=
  match x with
  | S754_zero s | S754_infinity s | S754_finite s _ _ => s = false
  | S754_nan => True
  end.

(** [float64(n)] for a Go [int] [n] (here [0 <= n < 2^63]). *)
Definition of_int (n : Z) : float := PrimFloat.of_uint63 (Uint63.of_Z n).

End F64.

(** ** Go values: errors, results, panics *)

(** The error values the updater distinguishes, and the ones it only logs. *)
Inductive error : Type :=
| ErrVehicleNotFound
| ErrLocationNotFound
| ErrRouteNotFound
| ErrSyntax (what : string)
| ErrRange (what : string)
| ErrStorage (what : string).

(** A Go pair [(v, err)] of which exactly one component is meaningful. *)
Inductive result (A : Type) : Type :=
| Ok (a : A)
| Err (e : error).
Arguments Ok {A} a.
Arguments Err {A} e.

(** A Go call either returns or panics (index or slice out of range). *)
Inductive run (A : Type) : Type :=
| Done (a : A)
| Panicked.
Arguments Done {A} a.
Arguments Panicked {A}.

Definition run_bind {A B : Type} (m : run A) (k : A -> run B) : run B :=
  match m with
  | Done a => k a
  | Panicked => Panicked
  end.

(** ** Strings *)

Module strings.

Fixpoint HasPrefix (s pre : string) : bool :=
  match pre, s with
  | EmptyString, _ => true
  | String a pre', String b s' => Ascii.eqb a b && HasPrefix s' pre'
  | String _ _, EmptyString => false
  end.

(** [s[:n]], defined when [n <= len(s)]. *)
Fixpoint take (n : nat) (s : string) : string :=
  match n, s with
  | S n', String c s' => String c (take n' s')
  | _, _ => EmptyString
  end.

(** [s[n:]], defined when [n <= len(s)]. *)
Fixpoint drop (n : nat) (s : string) : string :=
  match n, s with
  | S n', String _ s' => drop n' s'
  | _, _ => s
  end.

(** [strings.Replace(s, old, new, -1)] for a non-empty [old]: every
    non-overlapping occurrence, left to right.  [skip] counts the bytes
    of an occurrence still to be passed over. *)
Fixpoint replace_from (old new : string) (skip : nat) (s : string) : string :=
  match s with
  | EmptyString => EmptyString
  | String c s' =>
      match skip with
      | S k => replace_from old new k s'
      | O =>
          if HasPrefix s old
          then String.append new (replace_from old new (String.length old - 1) s')
          else String c (replace_from old new 0 s')
      end
  end.

Definition Replace (s old new : string) : string := replace_from old new 0 s.

(** [strings.Split(s, sep)] for a non-empty [sep]; [cur] is the piece
    being read. *)
Fixpoint split_from (sep : string) (skip : nat) (cur : string) (s : string)
  : list string :=
  match s with
  | EmptyString => [cur]
  | String c s' =>
      match skip with
      | S k => split_from sep k cur s'
      | O =>
          if HasPrefix s sep
          then cur :: split_from sep (String.length sep - 1) EmptyString s'
          else split_from sep 0 (String.append cur (String c EmptyString)) s'
      end
  end.

Definition Split (s sep : string) : list string := split_from sep 0 EmptyString s.

(** The longest prefix of [s] whose bytes satisfy [p], and the rest. *)
Fixpoint span (p : ascii -> bool) (s : string) : string * string :=
  match s with
  | EmptyString => (EmptyString, EmptyString)
  | String c s' =>
      if p c
      then let '(a, b) := span p s' in (String c a, b)
      else (EmptyString, s)
  end.

Definition isDigit (c : ascii) : bool :=
  (Nat.leb 48 (nat_of_ascii c) && Nat.leb (nat_of_ascii c) 57)%bool.

Definition digitVal (c : ascii) : Z := Z.of_nat (nat_of_ascii c) - 48.

End strings.

(** ** Time *)

(** An instant, in seconds since the Unix epoch.  The feed's timestamps
    have a resolution of one second; the sub-second part of [time.Now()]
    plays no role in the updater. *)
Definition Time : Type := Z.

Module time.

Definition Equal (t u : Time) : bool := Z.eqb t u.

Definition Minute : Z := 60.

(** [t.Add(d)] for a duration [d] in seconds. *)
Definition Add (t : Time) (d : Z) : Time := t + d.

Definition isLeap (year : Z) : bool :=
  ((year mod 4 =? 0) && (negb (year mod 100 =? 0) || (year mod 400 =? 0)))%bool.

Definition daysIn (month year : Z) : Z :=
  if month =? 2 then (if isLeap year then 29 else 28)
  else if (month =? 4) || (month =? 6) || (month =? 9) || (month =? 11) then 30
  else 31.

(** Days from 1970-01-01 to the given civil date (proleptic Gregorian). *)
Definition daysSinceEpoch (year month day : Z) : Z :=
  let y := if month <=? 2 then year - 1 else year in
  let era := y / 400 in
  let yoe := y - era * 400 in
  let mp := (month + 9) mod 12 in
  let doy := (153 * mp + 2) / 5 + day - 1 in
  let doe := yoe * 365 + yoe / 4 - yoe / 100 + doy in
  era * 146097 + doe - 719468.

(** [time.Date(year, month, day, hour, min, sec, 0, time.UTC)] for fields
    already in range. *)
Definition Date (year month day hour min sec : Z) : Time :=
  daysSinceEpoch year month day * 86400 + hour * 3600 + min * 60 + sec.

(** [getnum(s, fixed)] of package time: one or two leading digits; two are
    required when [fixed]. *)
Definition getnum (s : string) (fixed : bool) : option (Z * string) :=
  match s with
  | String a rest =>
      if strings.isDigit a then
        match rest with
        | String b rest' =>
            if strings.isDigit b
            then Some (strings.digitVal a * 10 + strings.digitVal b, rest')
            else if fixed then None else Some (strings.digitVal a, rest)
        | EmptyString => if fixed then None else Some (strings.digitVal a, rest)
        end
      else None
  | EmptyString => None
  end.

(** The four-digit year of layout element [2006]. *)
Definition getyear (s : string) : option (Z * string) :=
  match s with
  | String a (String b (String c (String d rest))) =>
      if (strings.isDigit a && strings.isDigit b && strings.isDigit c
          && strings.isDigit d)%bool
      then Some (((strings.digitVal a * 10 + strings.digitVal b) * 10
                  + strings.digitVal c) * 10 + strings.digitVal d, rest)
      else None
  | _ => None
  end.

Fixpoint cutspace (s : string) : string :=
  match s with
  | String " " s' => cutspace s'
  | _ => s
  end.

(** [skip(value, prefix)] of package time: the literal text of a layout;
    a run of spaces in the layout stands for a space, or the end, of the
    value, and consumes every space found there.  [spaces] tells that the
    previous byte of the layout was a space. *)
Fixpoint skip_from (spaces : bool) (value prefix : string) : option string :=
  match prefix with
  | EmptyString => Some value
  | String p prefix' =>
      if Ascii.eqb p " " then
        if spaces then skip_from true value prefix'
        else
          match value with
          | String c _ =>
              if Ascii.eqb c " " then skip_from true (cutspace value) prefix'
              else None
          | EmptyString => skip_from true value prefix'
          end
      else
        match value with
        | String c value' =>
            if Ascii.eqb c p then skip_from false value' prefix' else None
        | EmptyString => None
        end
  end.

Definition skip (value prefix : string) : option string :=
  skip_from false value prefix.

Definition in_range (lo x hi : Z) : bool := ((lo <=? x) && (x <=? hi))%bool.

(** [time.Parse("date:01022006 time:150405", value)].

    The layout's elements are, in order: the text [date:], a two-digit
    month ([01]), a two-digit day ([02]), a four-digit year ([2006]), the
    text [ time:], an hour of one or two digits ([15]), a two-digit minute
    ([04]) and a two-digit second ([05]).  The result is in UTC.  A value
    with anything left after the seconds is rejected (the fractional
    seconds Go tolerates there do not occur in a field of digits). *)
Definition Parse_date_time (value : string) : result Time :=
  let bad := Err (ErrSyntax value) in
  let out := Err (ErrRange value) in
  match skip value "date:" with
  | None => bad
  | Some v =>
  match getnum v true with
  | None => bad
  | Some (month, v) =>
  if negb (in_range 1 month 12) then out else
  match getnum v true with
  | None => bad
  | Some (day, v) =>
  match getyear v with
  | None => bad
  | Some (year, v) =>
  match skip v " time:" with
  | None => bad
  | Some v =>
  match getnum v false with
  | None => bad
  | Some (hour, v) =>
  if negb (in_range 0 hour 23) then out else
  match getnum v true with
  | None => bad
  | Some (min, v) =>
  if negb (in_range 0 min 59) then out else
  match getnum v true with
  | None => bad
  | Some (sec, v) =>
  if negb (in_range 0 sec 59) then out else
  match v with
  | String _ _ => bad
  | EmptyString =>
      if negb (in_range 1 day (daysIn month year)) then out
      else Ok (Date year month day hour min sec)
  end end end end end end end end end.

End time.

(** ** updater.go: itrakTimeDate *)

(** The zeros appended by the loop [for i := len(itrakTime); i < 11; i++]. *)
Fixpoint zeros (n : nat) : string :=
  match n with
  | O => EmptyString
  | S n' => String "0" (zeros n')
  end.

(** Lines 338-345: the time value padded to eleven bytes.  [itrakTime[:5]]
    panics when the string has fewer than five bytes. *)
Definition padTime (itrakTime : string) : run string :=
  if Nat.ltb (String.length itrakTime) 11 then
    if Nat.ltb (String.length itrakTime) 5 then Panicked
    else
      let builder := strings.take 5 itrakTime in
      let builder := String.append builder (zeros (11 - String.length itrakTime)) in
      let builder := String.append builder (strings.drop 5 itrakTime) in
      Done builder
  else Done itrakTime.

Definition itrakTimeDate (itrakTime itrakDate : string) : run (result Time) :=
  run_bind (padTime itrakTime) (fun itrakTime =>
    let combined := String.append itrakDate (String.append " " itrakTime) in
    Done (time.Parse_date_time combined)).

(** ** The field grammar ([Updater.dataRegexp]) *)

Module regexp.

(** [\d] *)
Definition digit (c : ascii) : bool := strings.isDigit c.

(** [[\d\.]] *)
Definition digit_dot (c : ascii) : bool :=
  (strings.isDigit c || Ascii.eqb c ".")%bool.

(** [[\d\.-]] *)
Definition digit_dot_dash (c : ascii) : bool :=
  (strings.isDigit c || Ascii.eqb c "." || Ascii.eqb c "-")%bool.

(** One field of the pattern, [(?P<name>label([class]+))]. *)
Record field : Type := mkField {
  fname : string;
  flabel : string;
  fclass : ascii -> bool
}.

(** The nine fields of the pattern compiled in [New], which the pattern
    separates by single spaces. *)
Definition dataFields : list field :=
  [ mkField "id" "Vehicle ID:" digit_dot;
    mkField "lat" "lat:" digit_dot_dash;
    mkField "lng" "lon:" digit_dot_dash;
    mkField "heading" "dir:" digit_dot_dash;
    mkField "speed" "spd:" digit_dot_dash;
    mkField "lock" "lck:" digit_dot_dash;
    mkField "time" "time:" digit;
    mkField "date" "date:" digit;
    mkField "status" "trig:" digit ].

(** [SubexpNames()]: the whole match, then for each field its named group
    and the unnamed group inside it. *)
Definition SubexpNames : list string :=
  EmptyString :: flat_map (fun f => [fname f; EmptyString]) dataFields.

Definition strip_prefix (pre s : string) : option string :=
  if strings.HasPrefix s pre then Some (strings.drop (String.length pre) s)
  else None.

(** The fields [fs] matched at the start of [s]: for each field the text
    of its two groups, and what follows the match.  No byte class holds
    the space that follows a field, so the greedy [+] has one way to
    match. *)
Fixpoint match_fields (first : bool) (fs : list field) (s : string)
  : option (list string * string) :=
  match fs with
  | [] => Some ([], s)
  | f :: fs' =>
      let s0 := if first then Some s else strip_prefix " " s in
      match s0 with
      | None => None
      | Some s0 =>
          match strip_prefix (flabel f) s0 with
          | None => None
          | Some s1 =>
              let '(v, rest) := strings.span (fclass f) s1 in
              match v with
              | EmptyString => None
              | String _ _ =>
                  match match_fields false fs' rest with
                  | None => None
                  | Some (groups, rest') =>
                      Some (String.append (flabel f) v :: v :: groups, rest')
                  end
              end
          end
      end
  end.

(** Group 0 from the named groups: the fields joined by spaces. *)
Fixpoint whole (first : bool) (groups : list string) : string :=
  match groups with
  | named :: _ :: groups' =>
      String.append (if first then EmptyString else " ")
        (String.append named (whole false groups'))
  | _ => EmptyString
  end.

(** The submatches of a match that starts at the first byte of [s]. *)
Definition match_here (s : string) : option (list string) :=
  match match_fields true dataFields s with
  | Some (groups, _) => Some (whole true groups :: groups)
  | None => None
  end.

(** [dataRegexp.FindAllStringSubmatch(s, -1)]: the successive leftmost
    matches, none overlapping the one before; [nil] when there is none.
    [skip] counts the bytes of the last match still to be passed over. *)
Fixpoint find_from (skip : nat) (s : string) : list (list string) :=
  match s with
  | EmptyString => []
  | String _ s' =>
      match skip with
      | S k => find_from k s'
      | O =>
          match match_here s with
          | Some m => m :: find_from (String.length (hd EmptyString m) - 1) s'
          | None => find_from 0 s'
          end
      end
  end.

Definition FindAllStringSubmatch (s : string) : list (list string) :=
  find_from 0 s.

End regexp.

(** ** strconv.ParseFloat on the grammar's numeric fields *)

Module strconv.

(** The decimal digits of [s] as a number, and how many there are; [None]
    when a byte is not a digit. *)
Fixpoint digits (acc : Z) (n : Z) (s : string) : option (Z * Z) :=
  match s with
  | EmptyString => Some (acc, n)
  | String c s' =>
      if strings.isDigit c then digits (acc * 10 + strings.digitVal c) (n + 1) s'
      else None
  end.

(** The binary64 nearest to [num / den] (ties to even), with the given
    sign; [num] and [den] are positive. *)
Definition nearest_ratio (neg : bool) (num den : Z) : spec_float :=
  let '(q, e, l) := SFdiv_core_binary prec emax num 0 den 0 in
  binary_round_aux prec emax neg q e l.

(** [strconv.ParseFloat(s, 64)] for a string over the bytes the grammar
    admits in a numeric field (digits, [.], [-]) and [+]: an optional sign,
    then digits with at most one point and at least one digit.  The value
    is the nearest binary64; one beyond the largest finite value is
    reported as a range error.  (Exponents, hexadecimal notation,
    infinities and NaN need letters, which no field holds: they are
    outside this model.) *)
Definition ParseFloat (s : string) : result float :=
  let '(neg, body) :=
    match s with
    | String "-" s' => (true, s')
    | String "+" s' => (false, s')
    | _ => (false, s)
    end in
  let '(int_part, rest) := strings.span strings.isDigit body in
  let frac_part :=
    match rest with
    | String "." r => Some r
    | EmptyString => Some EmptyString
    | _ => None
    end in
  match frac_part with
  | None => Err (ErrSyntax s)
  | Some frac =>
      match digits 0 0 int_part with
      | None => Err (ErrSyntax s)
      | Some (i, ni) =>
          match digits i 0 frac with
          | None => Err (ErrSyntax s)
          | Some (num, nf) =>
              if (ni + nf =? 0) then Err (ErrSyntax s)
              else if num =? 0 then Ok (if neg then neg_zero else zero)
              else
                match nearest_ratio neg num (10 ^ nf) with
                | S754_infinity _ => Err (ErrRange s)
                | v => Ok (SF2Prim v)
                end
          end
      end
  end.

End strconv.

(** ** package math *)

Module math.

Definition Inf : float := infinity.

Definition Sqrt (x : float) : float := PrimFloat.sqrt x.

(** [math.Pow(x, 2)], as the product [x * x].  (Go computes the square
    through [Frexp] and [Ldexp]; the two agree except for the last bit of
    a subnormal result.) *)
Definition Pow2 (x : float) : float := (x * x)%float.

End math.

(** ** package shuttletracker: the data the updater reads and writes *)

Module Point.
Record t : Type := mk {
  Latitude : float;
  Longitude : float
}.
End Point.

Module Vehicle.
Record t : Type := mk {
  ID : Z;
  Name : string;
  TrackerID : string;
  Enabled : bool
}.
End Vehicle.

Module Route.
Record t : Type := mk {
  ID : Z;
  Name : string;
  Enabled : bool;
  Active : bool;
  Points : list Point.t
}.
End Route.

Module Location.
Record t : Type := mk {
  TrackerID : string;
  Latitude : float;
  Longitude : float;
  Heading : float;
  Speed : float;
  Time : Time;
  RouteID : option Z
}.
End Location.

(** [shuttletracker.ModelService], as far as the updater calls it, over a
    store [St].  A method whose pointer result the updater reads only when
    the error is [nil] returns a [result] (the pointer is taken to be
    non-nil then); [LocationsSince] and [Route] return the pair as it is,
    since the updater uses both halves.  [DeleteLocationsBefore] returns
    the store it leaves and the number of locations it removed or an
    error. *)
Class ModelService (St : Type) : Type := {
  VehicleWithTrackerID : St -> string -> result Vehicle.t;
  LatestLocation : St -> Z -> result Location.t;
  LocationsSince : St -> Z -> Time -> list Location.t * option error;
  Routes : St -> result (list Route.t);
  Route : St -> Z -> option Route.t * option error;
  CreateLocation : St -> Location.t -> St * option error;
  DeleteLocationsBefore : St -> Time -> St * result Z
}.

(** ** updater.go: the route guesser *)

(** [routeDistances[id]]: a missing key reads as the zero value. *)
Definition rd_get (rd : gmap Z float) (id : Z) : float :=
  default 0%float (rd !! id).

(** [routeDistances[id] += x] *)
Definition rd_add (rd : gmap Z float) (id : Z) (x : float) : gmap Z float :=
  <[id := (rd_get rd id + x)%float]> rd.

(** Lines 269-272. *)
Definition rd_init (routes : list Route.t) : gmap Z float :=
  fold_left (fun rd route => <[Route.ID route := 0%float]> rd) routes ∅.

(** Lines 290-291. *)
Definition point_distance (update : Location.t) (point : Point.t) : float :=
  math.Sqrt (math.Pow2 (Location.Latitude update - Point.Latitude point)
             + math.Pow2 (Location.Longitude update - Point.Longitude point))%float.

(** Lines 287-295. *)
Definition nearest_step (update : Location.t) (nearestDistance : float)
    (point : Point.t) : float :=
  let distance := point_distance update point in
  if (distance <? nearestDistance)%float then distance else nearestDistance.

Definition nearest (update : Location.t) (points : list Point.t) : float :=
  fold_left (nearest_step update) points math.Inf.

(** Lines 284-300: the body of the loop over routes. *)
Definition score_route (update : Location.t) (rd : gmap Z float)
    (route : Route.t) : gmap Z float :=
  let rd :=
    if (negb (Route.Enabled route) || negb (Route.Active route))%bool
    then rd_add rd (Route.ID route) math.Inf
    else rd in
  let nearestDistance := nearest update (Route.Points route) in
  let nearestDistance :=
    if (0.003 <? nearestDistance)%float then (nearestDistance + 50)%float
    else nearestDistance in
  rd_add rd (Route.ID route) nearestDistance.

(** Lines 282-302. *)
Definition accumulate (routes : list Route.t) (updates : list Location.t)
    (rd : gmap Z float) : gmap Z float :=
  fold_left (fun rd update => fold_left (score_route update) routes rd)
    updates rd.

(** [routeDistances[id] / float64(len(updates))] *)
Definition average (rd : gmap Z float) (n : nat) (id : Z) : float :=
  (rd_get rd id / F64.of_int (Z.of_nat n))%float.

(** The average of every key after the loops of lines 269-302. *)
Definition averages (routes : list Route.t) (updates : list Location.t)
  : Z -> float :=
  average (accumulate routes updates (rd_init routes)) (length updates).

(** [id] is one of [keys] and no key has a smaller average: the average
    of [id] is the minimum over [keys]. *)
Definition minimizes (avg : Z -> float) (keys : list Z) (id : Z) : bool :=
  (existsb (Z.eqb id) keys
   && forallb (fun j => (avg id <=? avg j)%float) keys)%bool.

(** The keys tied at the minimum, in the order [range] yields them. *)
Definition tied (avg : Z -> float) (order : list Z) : list Z :=
  List.filter (minimizes avg order) order.

Definition first_tied (avg : Z -> float) (order : list Z) : option Z :=
  head (tied avg order).

Definition last_tied (avg : Z -> float) (order : list Z) : option Z :=
  last (tied avg order).

(** A route the guesser is meant to leave out of contention: disabled,
    inactive, or without points. *)
Definition excluded (route : Route.t) : Prop :=
  Route.Enabled route = false \/ Route.Active route = false
  \/ Route.Points route = [].

(** Lines 309-318: the body of the loop over the keys, on the pair
    [(minDistance, minRouteID)]. *)
Definition select_step (avg : Z -> float) (st : float * Z) (id : Z)
  : float * Z :=
  let '(minDistance, minRouteID) := st in
  let distance := avg id in
  if (distance <? minDistance)%float
  then (distance, if (5 <? distance)%float then 0 else id)
  else (minDistance, minRouteID).

(** Lines 306-319, for the keys in the order [range] yields them. *)
Definition select_min (avg : Z -> float) (order : list Z) : float * Z :=
  fold_left (select_step avg) order (math.Inf, 0).

(** Lines 321-333.  Key 0 reads as no route.  Otherwise the pair that
    [ms.Route] returns is returned as it is; line 332 reads the name of
    the route first when the error is [nil], which panics on a [nil]
    route. *)
Definition resolve `{ModelService St} (s : St) (minRouteID : Z)
  : run (option Route.t * option error) :=
  if minRouteID =? 0 then Done (None, None)
  else
    match Route s minRouteID with
    | (None, None) => Panicked
    | found => Done found
    end.

(** What Go allows for the order of [range routeDistances]: each key
    once. *)
Definition range_order (rd : gmap Z float) (order : list Z) : Prop :=
  order ≡ₚ elements (dom rd).

(** [GuessRouteForVehicle], at the instant [now], with [order] the order
    in which [range routeDistances] yields the keys.  The named results
    [(route, err)] are the returned pair. *)
Definition GuessRouteForVehicle `{ModelService St} (s : St) (now : Time)
    (order : list Z) (vehicle : Vehicle.t)
  : run (option Route.t * option error) :=
  match Routes s with
  | Err e => Done (None, Some e)
  | Ok routes =>
      let routeDistances := rd_init routes in
      let '(updates, err) :=
        LocationsSince s (Vehicle.ID vehicle)
          (time.Add now (time.Minute * -15)) in
      if Nat.ltb (length updates) 5 then Done (None, err)
      else
        let routeDistances := accumulate routes updates routeDistances in
        let '(_, minRouteID) :=
          select_min (average routeDistances (length updates)) order in
        resolve s minRouteID
  end.

(** ** updater.go: handleVehicleData *)

Definition kphToMPH (kmh : float) : float := (kmh * 0.621371192)%float.

(** Lines 162-165: the map from group names to the matched text.  The
    unnamed groups all land on the key [""]. *)
Definition named_groups (m : list string) : gmap string string :=
  fold_left (fun result '(name, item) => <[name := item]> result)
    (combine regexp.SubexpNames m) ∅.

(** [result[name]]: a missing key reads as the empty string. *)
Definition group (result : gmap string string) (name : string) : string :=
  default EmptyString (result !! name).

(** Why [handleVehicleData] returned without storing a location: one
    constructor for each [return] before [CreateLocation]. *)
Inductive Skip : Type :=
| UnknownVehicle
| VehicleLookupFailed (e : error)
| BadTimeDate (e : error)
| LastUpdateFailed (e : error)
| Duplicate
| RouteGuessFailed (e : error)
| BadLatitude (e : error)
| BadLongitude (e : error)
| BadHeading (e : error)
| BadSpeed (e : error).

(** What a call of [handleVehicleData] did: it returned early, or it
    called [CreateLocation] on a location (and got [err] back). *)
Inductive Outcome : Type :=
| Skipped (why : Skip)
| Created (update : Location.t) (err : option error).

(** Lines 197-249: past the duplicate check. *)
Definition storeUpdate `{ModelService St} (s : St) (now : Time) (order : list Z)
    (result : gmap string string) (vehicle : Vehicle.t) (newTime : Time)
  : run (St * Outcome) :=
  match GuessRouteForVehicle s now order vehicle with
  | Panicked => Panicked
  | Done (_, Some e) => Done (s, Skipped (RouteGuessFailed e))
  | Done (route, None) =>
  match strconv.ParseFloat (strings.Replace (group result "lat") "lat:" "") with
  | Err e => Done (s, Skipped (BadLatitude e))
  | Ok latitude =>
  match strconv.ParseFloat (strings.Replace (group result "lng") "lon:" "") with
  | Err e => Done (s, Skipped (BadLongitude e))
  | Ok longitude =>
  match strconv.ParseFloat (strings.Replace (group result "heading") "dir:" "") with
  | Err e => Done (s, Skipped (BadHeading e))
  | Ok heading =>
  match strconv.ParseFloat (strings.Replace (group result "speed") "spd:" "") with
  | Err e => Done (s, Skipped (BadSpeed e))
  | Ok speedKMH =>
      let speedMPH := kphToMPH speedKMH in
      let trackerID := strings.Replace (group result "id") "Vehicle ID:" "" in
      let update :=
        Location.mk trackerID latitude longitude heading speedMPH newTime
          (match route with
           | Some r => Some (Route.ID r)
           | None => None
           end) in
      let '(s', err) := CreateLocation s update in
      Done (s', Created update err)
  end end end end end.

(** Lines 167-196, from the named groups to the duplicate check. *)
Definition handleMatch `{ModelService St} (s : St) (now : Time) (order : list Z)
    (result : gmap string string) : run (St * Outcome) :=
  let itrakID := strings.Replace (group result "id") "Vehicle ID:" "" in
  match VehicleWithTrackerID s itrakID with
  | Err ErrVehicleNotFound => Done (s, Skipped UnknownVehicle)
  | Err e => Done (s, Skipped (VehicleLookupFailed e))
  | Ok vehicle =>
      run_bind (itrakTimeDate (group result "time") (group result "date"))
        (fun parsed =>
           match parsed with
           | Err e => Done (s, Skipped (BadTimeDate e))
           | Ok newTime =>
               match LatestLocation s (Vehicle.ID vehicle) with
               | Err ErrLocationNotFound =>
                   storeUpdate s now order result vehicle newTime
               | Err e => Done (s, Skipped (LastUpdateFailed e))
               | Ok lastUpdate =>
                   if time.Equal newTime (Location.Time lastUpdate)
                   then Done (s, Skipped Duplicate)
                   else storeUpdate s now order result vehicle newTime
               end
           end)
  end.

(** [handleVehicleData]: line 160 indexes the list of matches at 0, which
    panics when the list is empty.  The result is the store after the
    call and what the call did. *)
Definition handleVehicleData `{ModelService St} (s : St) (now : Time)
    (order : list Z) (vehicleData : string) : run (St * Outcome) :=
  match regexp.FindAllStringSubmatch vehicleData with
  | [] => Panicked
  | m :: _ => handleMatch s now order (named_groups m)
  end.

(** ** updater.go: update *)

(** The records of a feed body (lines 125-128): the pieces between the
    [eof] marks, without the piece after the last one. *)
Definition vehiclesData (body : string) : list string :=
  removelast (strings.Split body "eof").

(** Lines 135-144, with the goroutines run one after the other in the
    order of the records.  A goroutine that panics is not recovered: the
    process ends, which is [Panicked]. *)
Fixpoint handleAll `{ModelService St} (s : St) (now : Time) (order : list Z)
    (records : list string) : run (St * list Outcome) :=
  match records with
  | [] => Done (s, [])
  | vehicleData :: rest =>
      match handleVehicleData s now order vehicleData with
      | Panicked => Panicked
      | Done (s', o) =>
          match handleAll s' now order rest with
          | Panicked => Panicked
          | Done (s'', os) => Done (s'', o :: os)
          end
      end
  end.

Module http.

Definition StatusOK : Z := 200.

(** [http.Header]: the values of each key. *)
Definition Header : Type := list (string * list string).

End http.

Module DataFeedResponse.
Record t : Type := mk {
  Body : string;
  StatusCode : Z;
  Headers : http.Header
}.
End DataFeedResponse.

(** What the request of a cycle came to (lines 94-115): [client.Get]
    failed, or it gave a response with a status code and headers, whose
    body [ioutil.ReadAll] read or failed to read. *)
Inductive Fetched : Type :=
| GetFailed (e : error)
| Response (StatusCode : Z) (Header : http.Header) (body : result string).

(** The fields of [Updater] that change: the store behind [ms] and the
    last response. *)
Module Updater.
Record t (St : Type) : Type := mk {
  ms : St;
  lastDataFeedResponse : option DataFeedResponse.t
}.
Arguments mk {St} ms lastDataFeedResponse.
Arguments ms {St} _.
Arguments lastDataFeedResponse {St} _.
End Updater.

(** Lines 352-356. *)
Definition setLastResponse {St : Type} (u : Updater.t St)
    (dfresp : DataFeedResponse.t) : Updater.t St :=
  Updater.mk (Updater.ms u) (Some dfresp).

(** Lines 359-363. *)
Definition GetLastResponse {St : Type} (u : Updater.t St)
  : option DataFeedResponse.t :=
  Updater.lastDataFeedResponse u.

(** What a call of [update] takes from outside: the outcome of the
    request, the instant [time.Now()] of the guesser ([clock]), the
    order of its [range] ([keys]), and the instant
    [time.Now().AddDate(0, -1, 0)] of the pruning ([monthAgo]). *)
Record Cycle : Type := mkCycle {
  fetched : Fetched;
  clock : Time;
  keys : list Z;
  monthAgo : Time
}.

(** [update] (lines 92-156): the three early returns of the request, the
    last response, the records, and after the barrier the pruning, of
    which what it returns besides the store is only logged. *)
Definition update `{ModelService St} (u : Updater.t St) (c : Cycle)
  : run (Updater.t St) :=
  match fetched c with
  | GetFailed _ => Done u
  | Response code header read =>
      if negb (code =? http.StatusOK) then Done u
      else
        match read with
        | Err _ => Done u
        | Ok body =>
            let u := setLastResponse u (DataFeedResponse.mk body code header) in
            match handleAll (Updater.ms u) (clock c) (keys c)
                    (vehiclesData body) with
            | Panicked => Panicked
            | Done (s, _) =>
                let '(s', _) := DeleteLocationsBefore s (monthAgo c) in
                Done (Updater.mk s' (Updater.lastDataFeedResponse u))
            end
        end
  end.

(** [Run] (lines 77-88), for the calls of [update] made so far: the
    initial one and one for each tick.  A panic ends the process. *)
Fixpoint Run `{ModelService St} (u : Updater.t St) (cycles : list Cycle)
  : run (Updater.t St) :=
  match cycles with
  | [] => Done u
  | c :: rest => run_bind (update u c) (fun u' => Run u' rest)
  end.

(** ** An in-memory ModelService *)

Module MemStore.

(** Modelled from the spec: the persistence collaborator of section 6
    (the Postgres services for routes and locations are not part of this
    development).  Locations are kept most recently created first;
    [LatestLocation] is the vehicle's most recently stored one and
    [LocationsSince] the vehicle's locations later than the given
    instant.  No call fails except by not finding its subject. *)
Record t : Type := mk {
  vehicles : list Vehicle.t;
  routes : list Route.t;
  locations : list Location.t
}.

Definition of_vehicle (v : Vehicle.t) (l : Location.t) : bool :=
  String.eqb (Location.TrackerID l) (Vehicle.TrackerID v).

Definition vehicleWithTrackerID (s : t) (id : string) : result Vehicle.t :=
  match List.find (fun v => String.eqb (Vehicle.TrackerID v) id) (vehicles s) with
  | Some v => Ok v
  | None => Err ErrVehicleNotFound
  end.

Definition vehicle (s : t) (id : Z) : option Vehicle.t :=
  List.find (fun v => Vehicle.ID v =? id) (vehicles s).

Definition latestLocation (s : t) (vehicleID : Z) : result Location.t :=
  match vehicle s vehicleID with
  | None => Err ErrLocationNotFound
  | Some v =>
      match List.find (of_vehicle v) (locations s) with
      | Some l => Ok l
      | None => Err ErrLocationNotFound
      end
  end.

Definition locationsSince (s : t) (vehicleID : Z) (since : Time)
  : list Location.t * option error :=
  match vehicle s vehicleID with
  | None => ([], None)
  | Some v =>
      (List.filter (fun l => of_vehicle v l && (since <? Location.Time l))%bool
         (locations s), None)
  end.

Definition route (s : t) (id : Z) : option Route.t * option error :=
  match List.find (fun r => Route.ID r =? id) (routes s) with
  | Some r => (Some r, None)
  | None => (None, Some ErrRouteNotFound)
  end.

Definition createLocation (s : t) (l : Location.t) : t * option error :=
  (mk (vehicles s) (routes s) (l :: locations s), None).

(** The locations before the instant go; their number is returned. *)
Definition deleteLocationsBefore (s : t) (before : Time) : t * result Z :=
  let kept :=
    List.filter (fun l => negb (Location.Time l <? before)) (locations s) in
  (mk (vehicles s) (routes s) kept,
   Ok (Z.of_nat (length (locations s) - length kept))).

End MemStore.

#[export] Instance MemStore_ModelService : ModelService MemStore.t := {
  VehicleWithTrackerID := MemStore.vehicleWithTrackerID;
  LatestLocation := MemStore.latestLocation;
  LocationsSince := MemStore.locationsSince;
  Routes := fun s => Ok (MemStore.routes s);
  Route := MemStore.route;
  CreateLocation := MemStore.createLocation;
  DeleteLocationsBefore := MemStore.deleteLocationsBefore
}.

(** ** Concrete data for the examples *)

Module Sample.

Definition bus : Vehicle.t := Vehicle.mk 7 "Bus 7" "1831394611" true.

(** February 29, 2020, 09:31:00 (UTC). *)
Definition now : Time := time.Date 2020 2 29 9 31 0.

Definition stop : Point.t := Point.mk 42.7301 (-73.6764).
Definition far_stop : Point.t := Point.mk 43.5 (-74.5).

Definition east : Route.t := Route.mk 1 "East" true true [stop].
Definition west : Route.t := Route.mk 2 "West" true true [stop].
Definition north : Route.t := Route.mk 3 "North" true true [far_stop].
Definition closed : Route.t := Route.mk 4 "Closed" false true [stop].
Definition idle : Route.t := Route.mk 5 "Idle" true false [stop].
Definition blank : Route.t := Route.mk 6 "Blank" true true [].
Definition zeroth : Route.t := Route.mk 0 "Zeroth" true true [stop].

(** A reading of the bus at [stop], [secs] seconds before [now]. *)
Definition seen (secs : Z) : Location.t :=
  Location.mk "1831394611" 42.7301 (-73.6764) 90 20 (now - secs) None.

Definition five_seen : list Location.t :=
  [seen 10; seen 20; seen 30; seen 40; seen 50].

Definition three_seen : list Location.t := [seen 10; seen 20; seen 30].

Definition store (routes : list Route.t) (locations : list Location.t)
  : MemStore.t :=
  MemStore.mk [bus] routes locations.

(** Feed records of the bus, at 09:30:15, 09:30:25 and 09:30:05 of
    February 29, 2020, and the locations they are stored as. *)
Definition record_at (itrakTime : string) : string :=
  String.append "Vehicle ID:1831394611 lat:42.7301 lon:-73.6764 dir:90 spd:35.5 lck:1 time:"
    (String.append itrakTime " date:02292020 trig:4").

Definition record1 : string := record_at "93015".
Definition record2 : string := record_at "93025".
Definition record0 : string := record_at "93005".

Definition t1 : Time := time.Date 2020 2 29 9 30 15.
Definition t2 : Time := time.Date 2020 2 29 9 30 25.
Definition t0 : Time := time.Date 2020 2 29 9 30 5.

Definition stored (t : Time) : Location.t :=
  Location.mk "1831394611" 42.7301 (-73.6764) 90 (kphToMPH 35.5) t None.

(** The submatches of the first match of a record. *)
Definition submatches (vehicleData : string) : list string :=
  hd [] (regexp.FindAllStringSubmatch vehicleData).

(** A record of the grammar whose latitude is no number. *)
Definition record_bad_lat : string :=
  "Vehicle ID:1831394611 lat:- lon:-73.6764 dir:90 spd:35.5 lck:1 time:93015 date:02292020 trig:4".

End Sample.

From Stdlib Require DecimalString.

(** ** More of package strings *)

Module strings_more.

(** [strings.Join(elems, sep)] *)
Fixpoint Join (elems : list string) (sep : string) : string :=
  match elems with
  | [] => EmptyString
  | [x] => x
  | x :: rest => String.append x (String.append sep (Join rest sep))
  end.

(** [strings.Contains(s, substr)] *)
Fixpoint Contains (s substr : string) : bool :=
  match s with
  | EmptyString => strings.HasPrefix s substr
  | String _ s' => (strings.HasPrefix s substr || Contains s' substr)%bool
  end.

End strings_more.

(** The body of a feed: every record followed by the mark [eof], then
    whatever follows the last mark. *)
Fixpoint feed_body (records : list string) (tail : string) : string :=
  match records with
  | [] => tail
  | r :: rest => String.append r (String.append "eof" (feed_body rest tail))
  end.

(** ** The feed's way of writing times and dates *)

Module itrak.

Definition digit_char (d : Z) : ascii := ascii_of_nat (48 + Z.to_nat d).

(** [n] in two decimal digits, before [rest]. *)
Definition two_digits (n : Z) (rest : string) : string :=
  String (digit_char (n / 10)) (String (digit_char (n mod 10)) rest).

(** [n] in four decimal digits, before [rest]. *)
Definition four_digits (n : Z) (rest : string) : string :=
  two_digits (n / 100) (two_digits (n mod 100) rest).

(** The value of the date field: [MMDDYYYY]. *)
Definition date_digits (year month day : Z) : string :=
  two_digits month (two_digits day (four_digits year EmptyString)).

(** The date field of a record: [date:MMDDYYYY]. *)
Definition date_field (year month day : Z) : string :=
  String.append "date:" (date_digits year month day).

(** The time field with all its six digits: [time:HHMMSS]. *)
Definition time_field_padded (hour min sec : Z) : string :=
  String.append "time:"
    (two_digits hour (two_digits min (two_digits sec EmptyString))).

(** The value of the time field as the feed writes it: the number
    [HHMMSS] in decimal, without the zeros a number does not start
    with. *)
Definition time_digits (hour min sec : Z) : string :=
  DecimalString.NilZero.string_of_int
    (Z.to_int (hour * 10000 + min * 100 + sec)).

(** The time field as the feed writes it. *)
Definition time_field (hour min sec : Z) : string :=
  String.append "time:" (time_digits hour min sec).

(** A date of the calendar, with a year of four digits. *)
Definition valid_date (year month day : Z) : bool :=
  (time.in_range 0 year 9999 && time.in_range 1 month 12
   && time.in_range 1 day (time.daysIn month year))%bool.

(** A time of the clock. *)
Definition valid_clock (hour min sec : Z) : bool :=
  (time.in_range 0 hour 23 && time.in_range 0 min 59
   && time.in_range 0 sec 59)%bool.

(** The numbers from 0 to [n - 1]. *)
Definition below (n : nat) : list Z := map Z.of_nat (seq 0 n).

(** Whether [padTime] turns the written time into the six-digit one. *)
Definition pads_to_six (hour min sec : Z) : bool :=
  match padTime (time_field hour min sec) with
  | Done padded => String.eqb padded (time_field_padded hour min sec)
  | Panicked => false
  end.

End itrak.

(** ** What a match of the grammar holds *)

(** Every byte of [s] satisfies [p]. *)
Fixpoint all_bytes (p : ascii -> bool) (s : string) : bool :=
  match s with
  | EmptyString => true
  | String c s' => (p c && all_bytes p s')%bool
  end.

(** [groups] are the groups of the fields [fs]: for each field the label
    followed by a value, then the value, which is not empty and holds
    only bytes of the field's class. *)
Fixpoint groups_of (fs : list regexp.field) (groups : list string) : Prop :=
  match fs, groups with
  | [], [] => True
  | f :: fs', named :: value :: groups' =>
      named = String.append (regexp.flabel f) value /\
      value <> EmptyString /\
      all_bytes (regexp.fclass f) value = true /\
      groups_of fs' groups'
  | _, _ => False
  end.

(** ** Distances *)

(** A binary64 value that is a distance: zero, a positive number or
    [+Inf]; not NaN, and the sign bit clear. *)
Definition is_distance (x : float) : bool :=
  match Prim2SF x with
  | S754_zero false | S754_finite false _ _ | S754_infinity false => true
  | _ => false
  end.

(** NaN. *)
Definition is_NaN (x : float) : bool :=
  match Prim2SF x with
  | S754_nan => true
  | _ => false
  end.

(** The sign bit of a value that is not NaN. *)
Definition sign_bit (x : float) : bool :=
  match Prim2SF x with
  | S754_zero s | S754_infinity s | S754_finite s _ _ => s
  | S754_nan => false
  end.

(** Every sum of the map, and what a missing key reads as, is a
    distance. *)
Definition all_distances (rd : gmap Z float) : Prop :=
  forall k, is_distance (rd_get rd k) = true.

(** ** A ModelService out of reach *)

(** A store none of whose calls succeeds (the database is down): every
    call returns the same error. *)
Module Outage.

Definition down : error := ErrStorage "connection refused".

End Outage.

#[export] Instance Outage_ModelService : ModelService unit := {
  VehicleWithTrackerID := fun _ _ => Err Outage.down;
  LatestLocation := fun _ _ => Err Outage.down;
  LocationsSince := fun _ _ _ => ([], Some Outage.down);
  Routes := fun _ => Err Outage.down;
  Route := fun _ _ => (None, Some Outage.down);
  CreateLocation := fun s _ => (s, Some Outage.down);
  DeleteLocationsBefore := fun s _ => (s, Err Outage.down)
}.

(** ** Records as the feed writes them *)

(** The fields [fs] with the given values: each field is its label and
    its value, and single spaces separate the fields. *)
Fixpoint write_fields (first : bool) (fs : list regexp.field)
    (values : list string) : string :=
  match fs, values with
  | f :: fs', v :: values' =>
      String.append (if first then EmptyString else " ")
        (String.append (regexp.flabel f)
           (String.append v (write_fields false fs' values')))
  | _, _ => EmptyString
  end.

(** A record of the feed with the given values of its nine fields. *)
Definition write_record (values : list string) : string :=
  write_fields true regexp.dataFields values.

(** One value for each field, not empty and of the bytes of the field's
    class. *)
Fixpoint admitted (fs : list regexp.field) (values : list string) : Prop :=
  match fs, values with
  | [], [] => True
  | f :: fs', v :: values' =>
      v <> EmptyString /\ all_bytes (regexp.fclass f) v = true /\
      admitted fs' values'
  | _, _ => False
  end.

(** The two groups of each field: the label with the value, and the
    value. *)
Fixpoint groups_for (fs : list regexp.field) (values : list string)
  : list string :=
  match fs, values with
  | f :: fs', v :: values' =>
      String.append (regexp.flabel f) v :: v :: groups_for fs' values'
  | _, _ => []
  end.

(** ** The cycles of Run *)

(** The response a cycle caches: the one of a request answered with
    status 200 whose body was read. *)
Definition cached (c : Cycle) : option DataFeedResponse.t :=
  match fetched c with
  | Response code header (Ok body) =>
      if code =? http.StatusOK
      then Some (DataFeedResponse.mk body code header)
      else None
  | _ => None
  end.

Definition fetched_ok (c : Cycle) : bool :=
  match cached c with
  | Some _ => true
  | None => false
  end.

(** Cycles for the examples: a request that failed, one answered with
    the first record of the bus, one answered with status 503, and one
    answered with a body whose one record is no record of the grammar. *)
Module Cycles.

Definition at_now (f : Fetched) : Cycle :=
  mkCycle f Sample.now [1] (time.Date 2020 1 29 9 31 0).

Definition failed : Cycle := at_now (GetFailed (ErrStorage "timeout")).

Definition served_response : DataFeedResponse.t :=
  DataFeedResponse.mk (feed_body [Sample.record1] EmptyString) 200 [].

Definition served : Cycle :=
  at_now (Response 200 [] (Ok (feed_body [Sample.record1] EmptyString))).

Definition refused : Cycle :=
  at_now (Response 503 [] (Ok "Service Unavailable")).

Definition garbled : Cycle :=
  at_now (Response 200 [] (Ok (feed_body ["lost"] EmptyString))).

(** The updater as [New] leaves it, on a store without locations. *)
Definition fresh : Updater.t MemStore.t :=
  Updater.mk (Sample.store [Sample.east] []) None.

End Cycles.
(** * Properties *)

Section F64_facts.
Import F64.

Lemma spec_float_nan_dec (x : spec_float) : {x = S754_nan} + {x <> S754_nan}.
Proof. destruct x; (left; reflexivity) || (right; discriminate). Qed.

Lemma SFcompare_rank (x y : spec_float) :
  x <> S754_nan -> y <> S754_nan ->
  SFcompare x y = Some (rank_cmp (rank x) (rank y)).
Proof.
  intros Hx Hy.
  destruct x as [sx|sx| |sx mx ex], y as [sy|sy| |sy my ey];
    try congruence;
    try (destruct sx; reflexivity);
    try (destruct sy; reflexivity);
    try (destruct sx, sy; reflexivity).
  destruct sx, sy; try reflexivity; cbn [SFcompare rank rank_cmp];
    change (Pos.compare_cont Eq mx my) with (Pos.compare mx my).
  change (-1 ?= -1) with Eq. cbv iota.
  rewrite Z.compare_opp.
  change (- Z.pos mx ?= - Z.pos my) with (CompOpp (Pos.compare mx my)).
  rewrite (Z.compare_antisym ex ey).
  destruct (ex ?= ey); reflexivity.
Qed.

Lemma SFcompare_nan_r (x : spec_float) : SFcompare x S754_nan = None.
Proof. destruct x as [|[]| |]; reflexivity. Qed.

Lemma rank_cmp_Lt (a b : Z * Z * Z) : rank_cmp a b = Lt <-> lexlt a b.
Proof.
  destruct a as [[a1 a2] a3], b as [[b1 b2] b3]; unfold rank_cmp, lexlt.
  destruct (Z.compare_spec a1 b1), (Z.compare_spec a2 b2),
    (Z.compare_spec a3 b3); split; intros; try discriminate; try lia;
    reflexivity.
Qed.

Lemma rank_cmp_Eq (a b : Z * Z * Z) : rank_cmp a b = Eq <-> a = b.
Proof.
  destruct a as [[a1 a2] a3], b as [[b1 b2] b3]; unfold rank_cmp.
  destruct (Z.compare_spec a1 b1), (Z.compare_spec a2 b2),
    (Z.compare_spec a3 b3); split; intros H'; try discriminate;
    try (inversion H'; lia); subst; reflexivity.
Qed.

Lemma ltb_true_iff (x y : float) :
  (x <? y)%float = true <->
  Prim2SF x <> S754_nan /\ Prim2SF y <> S754_nan /\
  lexlt (rank (Prim2SF x)) (rank (Prim2SF y)).
Proof.
  rewrite FloatAxioms.ltb_spec. unfold SFltb.
  destruct (spec_float_nan_dec (Prim2SF x)) as [Hx|Hx].
  { rewrite Hx. cbn. split; [discriminate | intros [? _]; congruence]. }
  destruct (spec_float_nan_dec (Prim2SF y)) as [Hy|Hy].
  { rewrite Hy, SFcompare_nan_r.
    split; [discriminate | intros (_ & ? & _); congruence]. }
  rewrite SFcompare_rank by assumption.
  rewrite <- rank_cmp_Lt.
  destruct (rank_cmp _ _); split; intros H'; try discriminate;
    try reflexivity; try (destruct H' as (_ & _ & ?); discriminate).
  repeat split; assumption.
Qed.

Lemma leb_true_iff (x y : float) :
  (x <=? y)%float = true <->
  Prim2SF x <> S754_nan /\ Prim2SF y <> S754_nan /\
  (lexlt (rank (Prim2SF x)) (rank (Prim2SF y)) \/
   rank (Prim2SF x) = rank (Prim2SF y)).
Proof.
  rewrite FloatAxioms.leb_spec. unfold SFleb.
  destruct (spec_float_nan_dec (Prim2SF x)) as [Hx|Hx].
  { rewrite Hx. cbn. split; [discriminate | intros [? _]; congruence]. }
  destruct (spec_float_nan_dec (Prim2SF y)) as [Hy|Hy].
  { rewrite Hy, SFcompare_nan_r.
    split; [discriminate | intros (_ & ? & _); congruence]. }
  rewrite SFcompare_rank by assumption.
  rewrite <- rank_cmp_Lt, <- rank_cmp_Eq.
  destruct (rank_cmp _ _); split; intros H'; try discriminate;
    try reflexivity; try (repeat split; auto; fail);
    destruct H' as (_ & _ & [?|?]); discriminate.
Qed.

Lemma ltb_false_iff (x y : float) :
  (x <? y)%float = false <-> ~ (x <? y)%float = true.
Proof. destruct (x <? y)%float; split; congruence. Qed.

Lemma f64_ltb_irrefl (x : float) : (x <? x)%float = false.
Proof.
  apply ltb_false_iff. rewrite ltb_true_iff. intros (_ & _ & H).
  destruct (rank (Prim2SF x)) as [[a b] c]. unfold lexlt in H. lia.
Qed.

Lemma f64_ltb_trans (x y z : float) :
  (x <? y)%float = true -> (y <? z)%float = true -> (x <? z)%float = true.
Proof.
  rewrite !ltb_true_iff. intros (Hx & _ & H1) (_ & Hz & H2).
  repeat split; try assumption.
  destruct (rank (Prim2SF x)) as [[a1 a2] a3],
    (rank (Prim2SF y)) as [[b1 b2] b3], (rank (Prim2SF z)) as [[c1 c2] c3].
  unfold lexlt in *. lia.
Qed.

Lemma f64_ltb_asym (x y : float) :
  (x <? y)%float = true -> (y <? x)%float = false.
Proof.
  intros H. apply ltb_false_iff. intros H'.
  pose proof (f64_ltb_trans _ _ _ H H') as Hxx.
  rewrite f64_ltb_irrefl in Hxx. discriminate.
Qed.

Lemma f64_leb_not_gt (x y : float) :
  (x <=? y)%float = true -> (y <? x)%float = false.
Proof.
  rewrite leb_true_iff. intros (_ & _ & H). apply ltb_false_iff.
  rewrite ltb_true_iff. intros (_ & _ & H').
  destruct (rank (Prim2SF x)) as [[a1 a2] a3],
    (rank (Prim2SF y)) as [[b1 b2] b3].
  unfold lexlt in *. destruct H as [H|H]; [lia | inversion H; lia].
Qed.

(** Two values that compare equal are interchangeable on the right of
    a strict comparison. *)
Lemma f64_ltb_congr (c m d : float) :
  (m <=? d)%float = true -> (m <? d)%float = false ->
  (c <? d)%float = (c <? m)%float.
Proof.
  rewrite leb_true_iff, ltb_false_iff, ltb_true_iff.
  intros (Hm & Hd & H) Hn.
  assert (Heq : rank (Prim2SF m) = rank (Prim2SF d)).
  { destruct H as [H|H]; [|exact H]. exfalso. apply Hn. auto. }
  apply Bool.eq_iff_eq_true. rewrite !ltb_true_iff, Heq. tauto.
Qed.

Lemma f64_leb_congr_l (c m d : float) :
  (m <=? d)%float = true -> (m <? d)%float = false ->
  (d <=? c)%float = (m <=? c)%float.
Proof.
  rewrite leb_true_iff, ltb_false_iff, ltb_true_iff.
  intros (Hm & Hd & H) Hn.
  assert (Heq : rank (Prim2SF m) = rank (Prim2SF d)).
  { destruct H as [H|H]; [|exact H]. exfalso. apply Hn. auto. }
  apply Bool.eq_iff_eq_true. rewrite !leb_true_iff, Heq. tauto.
Qed.

Lemma f64_leb_ltb_trans (x y z : float) :
  (x <=? y)%float = true -> (y <? z)%float = true -> (x <? z)%float = true.
Proof.
  rewrite leb_true_iff, !ltb_true_iff. intros (Hx & _ & H1) (_ & Hz & H2).
  repeat split; try assumption.
  destruct (rank (Prim2SF x)) as [[a1 a2] a3],
    (rank (Prim2SF y)) as [[b1 b2] b3], (rank (Prim2SF z)) as [[c1 c2] c3].
  unfold lexlt in *. destruct H1 as [H1|H1]; [lia | inversion H1; lia].
Qed.

Lemma f64_ltb_leb (x y : float) :
  (x <? y)%float = true -> (x <=? y)%float = true.
Proof. rewrite ltb_true_iff, leb_true_iff. tauto. Qed.

Lemma f64_not_below_inf (m : float) :
  (m <=? m)%float = true -> (m <? infinity)%float = false ->
  m = infinity.
Proof.
  rewrite leb_true_iff, ltb_false_iff, ltb_true_iff.
  intros (Hm & _) Hn. apply Prim2SF_inj.
  change (Prim2SF infinity) with (S754_infinity false) in *.
  destruct (Prim2SF m) as [s|[]| |[] mm e]; try congruence; exfalso;
    apply Hn; (repeat split; [assumption | discriminate | cbn; lia]).
Qed.

Lemma bad_add_l (x y : float) : bad x -> bad (x + y)%float.
Proof.
  unfold bad. rewrite FloatAxioms.add_spec. intros [H|H]; rewrite H;
    destruct (Prim2SF y) as [s|[]| |s m e]; cbn; auto.
Qed.

Lemma bad_add_inf (x : float) : bad (x + infinity)%float.
Proof.
  unfold bad. rewrite FloatAxioms.add_spec.
  change (Prim2SF infinity) with (S754_infinity false).
  destruct (Prim2SF x) as [s|[]| |s m e]; cbn; auto.
Qed.

Lemma bad_div (x n : float) :
  bad x -> not_neg (Prim2SF n) -> bad (x / n)%float.
Proof.
  unfold bad. rewrite FloatAxioms.div_spec. intros [H|H] Hn; rewrite H;
    destruct (Prim2SF n) as [s|s| |s m e]; cbn in *; subst; auto.
Qed.

Lemma bad_not_below (x y : float) : bad x -> (x <? y)%float = false.
Proof.
  unfold bad. rewrite FloatAxioms.ltb_spec. intros [H|H]; rewrite H;
    destruct (Prim2SF y) as [s|[]| |[] m e]; reflexivity.
Qed.

Lemma binary_round_aux_not_neg (m e : Z) (l : location) :
  not_neg (binary_round_aux prec emax false m e l).
Proof.
  unfold binary_round_aux.
  destruct (shr_fexp prec emax m e l) as [mrs e'].
  destruct (shr_fexp prec emax _ e' loc_Exact) as [mrs' e''].
  destruct (shr_m mrs'); cbn; auto.
  destruct (Z.leb _ _); cbn; auto.
Qed.

Lemma of_int_not_neg (n : Z) : not_neg (Prim2SF (of_int n)).
Proof.
  unfold of_int. rewrite of_uint63_spec.
  pose proof (Uint63.to_Z_bounded (Uint63.of_Z n)) as [Hlo _].
  destruct (Uint63.to_Z (Uint63.of_Z n)) as [|p|p]; cbn; auto; [|lia].
  unfold binary_round.
  destruct (shl_align _ _ _) as [mz ez].
  apply binary_round_aux_not_neg.
Qed.

End F64_facts.
(** ** The selection loop (lines 306-319) *)

Section Selection.
Variable avg : Z -> float.

(** The identifier the loop records for a key that improves the minimum. *)
Let tag (k : Z) : Z := if (5 <? avg k)%float then 0 else k.

Lemma select_step_eq (m0 : float) (i0 k : Z) :
  select_step avg (m0, i0) k =
  if (avg k <? m0)%float then (avg k, tag k) else (m0, i0).
Proof. reflexivity. Qed.

Lemma select_fold_cases (l : list Z) (m0 : float) (i0 : Z) :
  fold_left (select_step avg) l (m0, i0) = (m0, i0) \/
  exists k, k ∈ l /\ fold_left (select_step avg) l (m0, i0) = (avg k, tag k)
            /\ (avg k <? m0)%float = true.
Proof.
  revert m0 i0. induction l as [|k l IH]; intros m0 i0; [left; reflexivity|].
  cbn [fold_left]. rewrite select_step_eq.
  destruct (avg k <? m0)%float eqn:E.
  - right. destruct (IH (avg k) (tag k)) as [Hr|(k' & Hin & Hr & Hlt)].
    + exists k. split; [left|]. split; assumption.
    + exists k'. split; [right; assumption|]. split; [assumption|].
      eapply f64_ltb_trans; eassumption.
  - destruct (IH m0 i0) as [Hr|(k' & Hin & Hr & Hlt)]; [left; assumption|].
    right. exists k'. split; [right; assumption|]. split; assumption.
Qed.

Lemma select_fold_lower (l : list Z) (m0 : float) (i0 : Z) (k : Z) :
  k ∈ l -> (avg k <? fst (fold_left (select_step avg) l (m0, i0)))%float = false.
Proof.
  revert m0 i0. induction l as [|k0 l IH]; intros m0 i0 Hin.
  { inversion Hin. }
  cbn [fold_left].
  apply elem_of_cons in Hin as [->|Hin];
    [|destruct (select_step avg (m0, i0) k0); apply IH; assumption].
  rewrite select_step_eq.
  destruct (avg k0 <? m0)%float eqn:E.
  - destruct (select_fold_cases l (avg k0) (tag k0)) as [Hr|(k' & _ & Hr & Hlt)];
      rewrite Hr; cbn [fst].
    + apply f64_ltb_irrefl.
    + apply f64_ltb_asym. assumption.
  - destruct (select_fold_cases l m0 i0) as [Hr|(k' & _ & Hr & Hlt)];
      rewrite Hr; cbn [fst]; [assumption|].
    apply ltb_false_iff. intros Hc.
    rewrite (f64_ltb_trans _ _ _ Hc Hlt) in E. discriminate.
Qed.

(** A key the loop ends on is a key of the order whose average is below
    [+Inf]; otherwise the loop ends on 0. *)
Lemma select_min_id (order : list Z) :
  snd (select_min avg order) = 0 \/
  (snd (select_min avg order) ∈ order /\
   ~ F64.bad (avg (snd (select_min avg order)))).
Proof.
  unfold select_min.
  destruct (select_fold_cases order math.Inf 0) as [Hr|(k & Hin & Hr & Hlt)];
    rewrite Hr; cbn [snd]; [left; reflexivity|].
  unfold tag. destruct (5 <? avg k)%float; [left; reflexivity|].
  right. split; [assumption|]. intros Hbad.
  rewrite (bad_not_below _ math.Inf Hbad) in Hlt. discriminate.
Qed.

(** The first key of the order whose average no other key undercuts, when
    within the threshold, is the one the loop ends on. *)
Lemma select_min_first (pre post : list Z) (k : Z) :
  (forall j, j ∈ pre -> (avg k <? avg j)%float = true) ->
  (forall j, j ∈ post -> (avg k <=? avg j)%float = true) ->
  (avg k <=? 5)%float = true ->
  select_min avg (pre ++ k :: post) = (avg k, k).
Proof.
  intros Hpre Hpost H5. unfold select_min.
  rewrite fold_left_app. cbn [fold_left].
  assert (Hinf : (avg k <? math.Inf)%float = true).
  { apply f64_leb_ltb_trans with (y := 5%float); [assumption|reflexivity]. }
  assert (Hstep : exists m i, fold_left (select_step avg) pre (math.Inf, 0) = (m, i)
                              /\ (avg k <? m)%float = true).
  { destruct (select_fold_cases pre math.Inf 0) as [Hr|(j & Hin & Hr & _)];
      rewrite Hr; eexists _, _; (split; [reflexivity|]); auto. }
  destruct Hstep as (m & i & -> & Hlt).
  rewrite select_step_eq, Hlt. unfold tag.
  rewrite (f64_leb_not_gt _ _ H5).
  destruct (select_fold_cases post (avg k) k) as [Hr|(j & Hin & _ & Hc)];
    [assumption|].
  rewrite (f64_leb_not_gt _ _ (Hpost j Hin)) in Hc. discriminate.
Qed.

(** The threshold test inside the loop decides as a test after it would:
    on the minimum. *)
Lemma select_min_threshold (order : list Z) (k : Z) :
  minimizes avg order k = true ->
  ((5 <? avg k)%float = true -> snd (select_min avg order) = 0) /\
  ((avg k <=? 5)%float = true ->
   minimizes avg order (snd (select_min avg order)) = true).
Proof.
  unfold minimizes. rewrite andb_true_iff, existsb_exists, forallb_forall.
  intros [(k0 & Hk0 & Heq) Hmin]. apply Z.eqb_eq in Heq. subst k0.
  apply list_elem_of_In in Hk0.
  assert (Hmin' : forall j, j ∈ order -> (avg k <=? avg j)%float = true).
  { intros j Hj. apply Hmin, list_elem_of_In, Hj. }
  pose proof (select_fold_lower order math.Inf 0 k Hk0) as Hlow.
  fold (select_min avg order) in Hlow.
  unfold select_min in *.
  destruct (select_fold_cases order math.Inf 0) as [Hr|(k' & Hin & Hr & Hlt)];
    rewrite Hr in *; cbn [fst snd] in *.
  - pose proof (f64_not_below_inf _ (Hmin' k Hk0) Hlow) as Hk.
    split; [reflexivity|]. rewrite Hk. discriminate.
  - pose proof (f64_ltb_congr 5 _ _ (Hmin' k' Hin) Hlow) as H5.
    unfold tag. rewrite H5. split; [intros ->; reflexivity|].
    intros Hle. rewrite (f64_leb_not_gt _ _ Hle).
    rewrite andb_true_iff, existsb_exists, forallb_forall. split.
    + exists k'. split; [apply list_elem_of_In, Hin | apply Z.eqb_refl].
    + intros j Hj.
      rewrite (f64_leb_congr_l (avg j) _ _ (Hmin' k' Hin) Hlow).
      apply Hmin. assumption.
Qed.

End Selection.
(** ** The accumulation loops (lines 282-302) *)

Lemma rd_get_add_same (rd : gmap Z float) (id : Z) (x : float) :
  rd_get (rd_add rd id x) id = (rd_get rd id + x)%float.
Proof. unfold rd_add, rd_get at 1. rewrite lookup_insert_eq. reflexivity. Qed.

Lemma rd_get_add_other (rd : gmap Z float) (id k : Z) (x : float) :
  id <> k -> rd_get (rd_add rd id x) k = rd_get rd k.
Proof.
  intros Hne. unfold rd_add, rd_get at 1.
  rewrite lookup_insert_ne by assumption. reflexivity.
Qed.

(** Once the sum of a key is [+Inf] or NaN, adding anything to any key
    leaves it so. *)
Lemma rd_add_keeps_bad (rd : gmap Z float) (id k : Z) (x : float) :
  F64.bad (rd_get rd k) -> F64.bad (rd_get (rd_add rd id x) k).
Proof.
  intros Hbad. destruct (decide (id = k)) as [->|Hne].
  - rewrite rd_get_add_same. apply bad_add_l, Hbad.
  - rewrite rd_get_add_other by assumption. exact Hbad.
Qed.

Lemma rd_add_inf_bad (rd : gmap Z float) (id : Z) :
  F64.bad (rd_get (rd_add rd id math.Inf) id).
Proof. rewrite rd_get_add_same. apply bad_add_inf. Qed.

Lemma score_route_keeps_bad (update : Location.t) (rd : gmap Z float)
    (route : Route.t) (k : Z) :
  F64.bad (rd_get rd k) -> F64.bad (rd_get (score_route update rd route) k).
Proof.
  intros Hbad. unfold score_route. apply rd_add_keeps_bad.
  destruct (negb (Route.Enabled route) || negb (Route.Active route))%bool;
    [apply rd_add_keeps_bad|]; exact Hbad.
Qed.

Lemma score_route_excludes (update : Location.t) (rd : gmap Z float)
    (route : Route.t) :
  excluded route ->
  F64.bad (rd_get (score_route update rd route) (Route.ID route)).
Proof.
  unfold excluded, score_route. intros [H|[H|H]].
  - rewrite H. cbn [negb orb]. apply rd_add_keeps_bad, rd_add_inf_bad.
  - rewrite H, orb_true_r. apply rd_add_keeps_bad, rd_add_inf_bad.
  - rewrite H. cbn [nearest fold_left].
    change (if (0.003 <? math.Inf)%float then (math.Inf + 50)%float else math.Inf)
      with math.Inf.
    apply rd_add_inf_bad.
Qed.

Lemma routes_loop_keeps_bad (update : Location.t) (routes : list Route.t)
    (rd : gmap Z float) (k : Z) :
  F64.bad (rd_get rd k) ->
  F64.bad (rd_get (fold_left (score_route update) routes rd) k).
Proof.
  revert rd. induction routes as [|r routes IH]; intros rd Hbad; [exact Hbad|].
  cbn [fold_left]. apply IH, score_route_keeps_bad, Hbad.
Qed.

Lemma routes_loop_excludes (update : Location.t) (routes : list Route.t)
    (rd : gmap Z float) (route : Route.t) :
  route ∈ routes -> excluded route ->
  F64.bad (rd_get (fold_left (score_route update) routes rd) (Route.ID route)).
Proof.
  revert rd. induction routes as [|r routes IH]; intros rd Hin Hex.
  { inversion Hin. }
  cbn [fold_left]. apply elem_of_cons in Hin as [->|Hin].
  - apply routes_loop_keeps_bad, score_route_excludes, Hex.
  - apply IH; assumption.
Qed.

Lemma accumulate_keeps_bad (routes : list Route.t) (updates : list Location.t)
    (rd : gmap Z float) (k : Z) :
  F64.bad (rd_get rd k) -> F64.bad (rd_get (accumulate routes updates rd) k).
Proof.
  unfold accumulate. revert rd.
  induction updates as [|u updates IH]; intros rd Hbad; [exact Hbad|].
  cbn [fold_left]. apply IH, routes_loop_keeps_bad, Hbad.
Qed.

Lemma accumulate_excludes (routes : list Route.t) (updates : list Location.t)
    (rd : gmap Z float) (route : Route.t) :
  updates <> [] -> route ∈ routes -> excluded route ->
  F64.bad (rd_get (accumulate routes updates rd) (Route.ID route)).
Proof.
  intros Hne Hin Hex. destruct updates as [|u updates]; [congruence|].
  unfold accumulate. cbn [fold_left].
  apply (accumulate_keeps_bad routes updates), routes_loop_excludes; assumption.
Qed.

(** The average of an excluded route is [+Inf] or NaN. *)
Lemma averages_excluded (routes : list Route.t) (updates : list Location.t)
    (route : Route.t) :
  updates <> [] -> route ∈ routes -> excluded route ->
  F64.bad (averages routes updates (Route.ID route)).
Proof.
  intros Hne Hin Hex. unfold averages, average.
  apply bad_div; [|apply of_int_not_neg].
  apply accumulate_excludes; assumption.
Qed.

(** ** GuessRouteForVehicle as a whole *)

Section Guess.
Context {St : Type} `{ModelService St}.

(** Past the two lookups and the test on the number of samples, the
    result is the resolution of the key the selection loop ends on. *)
Lemma guess_selects (s : St) (now : Time) (order : list Z) (vehicle : Vehicle.t)
    (routes : list Route.t) (updates : list Location.t) (err : option error) :
  Routes s = Ok routes ->
  LocationsSince s (Vehicle.ID vehicle) (time.Add now (time.Minute * -15))
    = (updates, err) ->
  (5 <= length updates)%nat ->
  GuessRouteForVehicle s now order vehicle
    = resolve s (snd (select_min (averages routes updates) order)).
Proof.
  intros HR HL Hlen. unfold GuessRouteForVehicle. rewrite HR, HL.
  destruct (Nat.ltb_spec (length updates) 5) as [Hlt|_]; [lia|].
  fold (averages routes updates).
  destruct (select_min (averages routes updates) order). reflexivity.
Qed.

(** Lines 321-333, case by case: key 0 is no route; another key gives
    what [ms.Route] gives for it. *)
Lemma resolve_zero (s : St) : resolve s 0 = Done (None, None).
Proof. reflexivity. Qed.

Lemma resolve_route (s : St) (k : Z) (r : Route.t) (e : option error) :
  k <> 0 -> Route s k = (Some r, e) -> resolve s k = Done (Some r, e).
Proof.
  intros Hk Hr. unfold resolve.
  destruct (Z.eqb_spec k 0) as [|_]; [contradiction|]. rewrite Hr.
  destruct e; reflexivity.
Qed.

Lemma resolve_error (s : St) (k : Z) (e : error) :
  k <> 0 -> Route s k = (None, Some e) -> resolve s k = Done (None, Some e).
Proof.
  intros Hk Hr. unfold resolve.
  destruct (Z.eqb_spec k 0) as [|_]; [contradiction|]. rewrite Hr.
  reflexivity.
Qed.

(** A returned route was looked up under a key other than 0 that the
    selection loop ended on. *)
Lemma guess_returns (s : St) (now : Time) (order : list Z) (vehicle : Vehicle.t)
    (r : Route.t) (e : option error) :
  GuessRouteForVehicle s now order vehicle = Done (Some r, e) ->
  exists routes updates id,
    Routes s = Ok routes /\ (5 <= length updates)%nat /\
    id = snd (select_min (averages routes updates) order) /\
    id <> 0 /\ Route s id = (Some r, e).
Proof.
  unfold GuessRouteForVehicle. intros Hg.
  destruct (Routes s) as [routes|e0] eqn:HR; [|discriminate].
  destruct (LocationsSince s _ _) as [updates err] eqn:HL.
  destruct (Nat.ltb_spec (length updates) 5) as [Hlt|Hge]; [discriminate|].
  fold (averages routes updates) in Hg.
  exists routes, updates, (snd (select_min (averages routes updates) order)).
  destruct (select_min (averages routes updates) order) as [d k].
  cbn [snd]. unfold resolve in Hg.
  destruct (Z.eqb_spec k 0) as [Hk|Hne]; [discriminate|].
  repeat split; try assumption.
  destruct (Route s k) as [[r0|] [e0|]]; congruence.
Qed.

Lemma guess_not_excluded (s : St) (now : Time) (order : list Z)
    (vehicle : Vehicle.t) (routes : list Route.t) (r : Route.t)
    (e : option error) :
  Routes s = Ok routes ->
  GuessRouteForVehicle s now order vehicle = Done (Some r, e) ->
  exists id, id <> 0 /\ Route s id = (Some r, e) /\
    forall r', r' ∈ routes -> Route.ID r' = id -> ~ excluded r'.
Proof.
  intros HR Hg.
  destruct (guess_returns _ _ _ _ _ _ Hg)
    as (routes' & updates & id & HR' & Hlen & Hid & Hne & Hroute).
  rewrite HR in HR'. injection HR' as <-.
  exists id. split; [assumption|]. split; [assumption|].
  intros r' Hin Hr' Hex.
  destruct (select_min_id (averages routes updates) order) as [H0|[_ Hgood]];
    rewrite <- Hid in *; [contradiction|].
  apply Hgood. rewrite <- Hr'. apply averages_excluded; try assumption.
  destruct updates; [cbn in Hlen; lia | discriminate].
Qed.

End Guess.
(** ** The keys of routeDistances *)

Lemma dom_rd_add (rd : gmap Z float) (id : Z) (x : float) :
  dom (rd_add rd id x) = {[id]} ∪ dom rd.
Proof. unfold rd_add. apply dom_insert_L. Qed.

Lemma dom_score_route (update : Location.t) (rd : gmap Z float)
    (route : Route.t) :
  dom (score_route update rd route) = {[Route.ID route]} ∪ dom rd.
Proof.
  unfold score_route. rewrite dom_rd_add.
  destruct (negb (Route.Enabled route) || negb (Route.Active route))%bool;
    [rewrite dom_rd_add|]; set_solver.
Qed.

Lemma dom_routes_loop (update : Location.t) (routes : list Route.t)
    (rd : gmap Z float) :
  dom (fold_left (score_route update) routes rd)
  = list_to_set (Route.ID <$> routes) ∪ dom rd.
Proof.
  revert rd. induction routes as [|r routes IH]; intros rd; cbn [fold_left].
  - set_solver.
  - rewrite IH, dom_score_route. set_solver.
Qed.

Lemma dom_init_loop (routes : list Route.t) (rd : gmap Z float) :
  dom (fold_left (fun rd route => <[Route.ID route := 0%float]> rd) routes rd)
  = list_to_set (Route.ID <$> routes) ∪ dom rd.
Proof.
  revert rd. induction routes as [|r routes IH]; intros rd; cbn [fold_left].
  - set_solver.
  - rewrite IH, dom_insert_L. set_solver.
Qed.

Lemma dom_accumulate (routes : list Route.t) (updates : list Location.t)
    (rd : gmap Z float) :
  dom rd = list_to_set (Route.ID <$> routes) ->
  dom (accumulate routes updates rd) = list_to_set (Route.ID <$> routes).
Proof.
  unfold accumulate. revert rd.
  induction updates as [|u updates IH]; intros rd Hrd; cbn [fold_left];
    [assumption|].
  apply IH. rewrite dom_routes_loop, Hrd. set_solver.
Qed.

(** The keys [range] yields at line 308 are the identifiers of the
    routes, each once. *)
Lemma range_order_routes (routes : list Route.t) (updates : list Location.t)
    (order : list Z) :
  range_order (accumulate routes updates (rd_init routes)) order ->
  NoDup order /\
  forall id, id ∈ order <-> exists r, r ∈ routes /\ Route.ID r = id.
Proof.
  unfold range_order. intros Hperm.
  rewrite dom_accumulate in Hperm.
  2:{ unfold rd_init. rewrite dom_init_loop. set_solver. }
  split.
  - rewrite Hperm. apply NoDup_elements.
  - intros id. rewrite Hperm, elem_of_elements, elem_of_list_to_set.
    rewrite list_elem_of_fmap. split; intros (r & ? & ?); exists r; auto.
Qed.

(** ** The route guesser: claims *)

Section GuessClaims.
Context {St : Type} `{ModelService St}.
Variables (s : St) (now : Time) (vehicle : Vehicle.t).

(** The history lookup of line 274. *)
Let history : list Location.t * option error :=
  LocationsSince s (Vehicle.ID vehicle) (time.Add now (time.Minute * -15)).

(** C7.  When the history lookup succeeds with fewer than five samples,
    the guesser returns no route and no error, whatever the routes are. *)
Theorem too_few_updates_abstains (order : list Z) (routes : list Route.t)
    (updates : list Location.t) :
  Routes s = Ok routes ->
  history = (updates, None) ->
  (length updates < 5)%nat ->
  GuessRouteForVehicle s now order vehicle = Done (None, None).
Proof.
  intros HR HL Hlen. unfold GuessRouteForVehicle.
  fold history. rewrite HR, HL.
  destruct (Nat.ltb_spec (length updates) 5) as [_|Hge]; [reflexivity|lia].
Qed.

(** C6.  A route the guesser returns was looked up under an identifier
    that no disabled and no inactive route of the route set carries. *)
Theorem never_returns_disabled_or_inactive (order : list Z)
    (routes : list Route.t) (r : Route.t) (e : option error) :
  Routes s = Ok routes ->
  GuessRouteForVehicle s now order vehicle = Done (Some r, e) ->
  exists id, Route s id = (Some r, e) /\
    forall r', r' ∈ routes -> Route.ID r' = id ->
               Route.Enabled r' = true /\ Route.Active r' = true.
Proof.
  intros HR Hg.
  destruct (guess_not_excluded _ _ _ _ _ _ _ HR Hg) as (id & _ & Hroute & Hex).
  exists id. split; [assumption|]. intros r' Hin Hid.
  specialize (Hex r' Hin Hid). unfold excluded in Hex.
  destruct (Route.Enabled r'), (Route.Active r'); tauto.
Qed.

(** C10.  A route the guesser returns was looked up under an identifier
    that no route without points carries. *)
Theorem never_returns_route_without_points (order : list Z)
    (routes : list Route.t) (r : Route.t) (e : option error) :
  Routes s = Ok routes ->
  GuessRouteForVehicle s now order vehicle = Done (Some r, e) ->
  exists id, Route s id = (Some r, e) /\
    forall r', r' ∈ routes -> Route.ID r' = id -> Route.Points r' <> [].
Proof.
  intros HR Hg.
  destruct (guess_not_excluded _ _ _ _ _ _ _ HR Hg) as (id & _ & Hroute & Hex).
  exists id. split; [assumption|]. intros r' Hin Hid Hnil.
  apply (Hex r' Hin Hid). unfold excluded. tauto.
Qed.

(** The first of the tied keys splits the order in keys strictly above
    the minimum, the key itself, and keys not below it. *)
Lemma first_tied_split (avg : Z -> float) (order : list Z) (k : Z) :
  first_tied avg order = Some k ->
  exists pre post, order = pre ++ k :: post /\
    (forall j, j ∈ pre -> (avg k <? avg j)%float = true) /\
    (forall j, j ∈ post -> (avg k <=? avg j)%float = true).
Proof.
  unfold first_tied, tied. intros Hfirst.
  assert (Hk : minimizes avg order k = true).
  { assert (Hin : In k (List.filter (minimizes avg order) order)).
    { destruct (List.filter _ order); [discriminate|].
      injection Hfirst as ->. left. reflexivity. }
    apply filter_In in Hin. tauto. }
  assert (Hle : forall j, j ∈ order -> (avg k <=? avg j)%float = true).
  { unfold minimizes in Hk. apply andb_true_iff in Hk as [_ Hall].
    rewrite forallb_forall in Hall. intros j Hj.
    apply Hall, list_elem_of_In, Hj. }
  assert (Hgen : forall l, (forall j, j ∈ l -> j ∈ order) ->
            head (List.filter (minimizes avg order) l) = Some k ->
            exists pre post, l = pre ++ k :: post /\
              (forall j, j ∈ pre -> minimizes avg order j = false)).
  { induction l as [|a l IH]; intros Hsub Hhead; [discriminate|].
    cbn [List.filter] in Hhead.
    destruct (minimizes avg order a) eqn:Ha.
    - injection Hhead as ->. exists [], l. split; [reflexivity|].
      intros j Hj. inversion Hj.
    - destruct IH as (pre & post & -> & Hpre); [|assumption|].
      { intros j Hj. apply Hsub. right. assumption. }
      exists (a :: pre), post. split; [reflexivity|].
      intros j Hj. apply elem_of_cons in Hj as [->|Hj]; auto. }
  destruct (Hgen order (fun _ h => h) Hfirst) as (pre & post & Heq & Hpre).
  exists pre, post. split; [assumption|]. split.
  - intros j Hj.
    assert (Hjo : j ∈ order).
    { rewrite Heq. apply elem_of_app. left. assumption. }
    destruct (avg k <? avg j)%float eqn:E; [reflexivity|exfalso].
    specialize (Hpre j Hj). unfold minimizes in Hpre.
    apply andb_false_iff in Hpre as [Hpre|Hpre].
    + rewrite <- not_true_iff_false, existsb_exists in Hpre. apply Hpre.
      exists j. split; [apply list_elem_of_In, Hjo | apply Z.eqb_refl].
    + rewrite <- not_true_iff_false, forallb_forall in Hpre. apply Hpre.
      intros j' Hj'. apply list_elem_of_In in Hj'.
      rewrite (f64_leb_congr_l (avg j') _ _ (Hle j Hjo) E). auto.
  - intros j Hj. apply Hle. rewrite Heq.
    apply elem_of_app. right. right. assumption.
Qed.

(** C3, as the code has it.  Past the test on the number of samples,
    when the minimum average is at most 5 the selection loop ends on the
    first of the tied keys in the order of the iteration.  When that key
    is 0 the guesser returns no route and no error.  Otherwise it
    returns what [ms.Route] gives for that key: the route, with the
    error that comes with it, when there is a route, and the error alone
    when there is none. *)
Theorem tie_resolves_to_first (order : list Z) (routes : list Route.t)
    (updates : list Location.t) (err : option error) (k : Z) :
  Routes s = Ok routes ->
  history = (updates, err) ->
  (5 <= length updates)%nat ->
  first_tied (averages routes updates) order = Some k ->
  (averages routes updates k <=? 5)%float = true ->
  snd (select_min (averages routes updates) order) = k /\
  (k = 0 ->
   GuessRouteForVehicle s now order vehicle = Done (None, None)) /\
  (k <> 0 -> forall r e,
     Route s k = (Some r, e) ->
     GuessRouteForVehicle s now order vehicle = Done (Some r, e)) /\
  (k <> 0 -> forall e,
     Route s k = (None, Some e) ->
     GuessRouteForVehicle s now order vehicle = Done (None, Some e)).
Proof.
  intros HR HL Hlen Hfirst H5.
  rewrite (guess_selects s now order vehicle routes updates err HR HL Hlen).
  destruct (first_tied_split _ _ _ Hfirst) as (pre & post & -> & Hpre & Hpost).
  rewrite (select_min_first _ pre post k Hpre Hpost H5). cbn [snd].
  split; [reflexivity|]. split; [intros ->; apply resolve_zero|]. split.
  - intros Hk r e Hr. apply resolve_route; assumption.
  - intros Hk e Hr. apply resolve_error; assumption.
Qed.

(** C5, as the code has it.  Past the test on the number of samples,
    let [k] be a key of minimum average.  If that minimum exceeds 5 the
    guesser returns no route and no error.  If it is at most 5 the
    selection loop ends on a key of minimum average: when that key is 0
    the guesser returns no route and no error, and otherwise it returns
    what [ms.Route] gives for that key, the route with the error that
    comes with it when there is a route, and the error alone when there
    is none. *)
Theorem threshold_decides_on_minimum (order : list Z) (routes : list Route.t)
    (updates : list Location.t) (err : option error) (k : Z) :
  Routes s = Ok routes ->
  history = (updates, err) ->
  (5 <= length updates)%nat ->
  minimizes (averages routes updates) order k = true ->
  ((5 <? averages routes updates k)%float = true ->
   GuessRouteForVehicle s now order vehicle = Done (None, None)) /\
  ((averages routes updates k <=? 5)%float = true ->
   exists id, minimizes (averages routes updates) order id = true /\
     snd (select_min (averages routes updates) order) = id /\
     (id = 0 ->
      GuessRouteForVehicle s now order vehicle = Done (None, None)) /\
     (id <> 0 -> forall r e,
        Route s id = (Some r, e) ->
        GuessRouteForVehicle s now order vehicle = Done (Some r, e)) /\
     (id <> 0 -> forall e,
        Route s id = (None, Some e) ->
        GuessRouteForVehicle s now order vehicle = Done (None, Some e))).
Proof.
  intros HR HL Hlen Hmin.
  rewrite (guess_selects s now order vehicle routes updates err HR HL Hlen).
  destruct (select_min_threshold _ order k Hmin) as [Hgt Hle]. split.
  - intros H5. rewrite (Hgt H5). reflexivity.
  - intros H5. eexists. split; [apply Hle, H5|].
    split; [reflexivity|]. split; [intros ->; apply resolve_zero|]. split.
    + intros Hk r e Hr. apply resolve_route; assumption.
    + intros Hk e Hr. apply resolve_error; assumption.
Qed.

(** C9.  Past the test on the number of samples, when key 0 is the first
    of the tied keys and the minimum is at most 5, the guesser returns no
    route and no error; and whatever the order, a route it returns was
    looked up under a key other than 0. *)
Theorem route_zero_is_no_route (order : list Z) (routes : list Route.t)
    (updates : list Location.t) (err : option error) :
  Routes s = Ok routes ->
  history = (updates, err) ->
  (5 <= length updates)%nat ->
  first_tied (averages routes updates) order = Some 0 ->
  (averages routes updates 0 <=? 5)%float = true ->
  GuessRouteForVehicle s now order vehicle = Done (None, None) /\
  forall order' r e,
    GuessRouteForVehicle s now order' vehicle = Done (Some r, e) ->
    exists id, id <> 0 /\ Route s id = (Some r, e).
Proof.
  intros HR HL Hlen Hfirst H5. split.
  - rewrite (guess_selects s now order vehicle routes updates err HR HL Hlen).
    destruct (first_tied_split _ _ _ Hfirst) as (pre & post & -> & Hpre & Hpost).
    rewrite (select_min_first _ pre post 0 Hpre Hpost H5). reflexivity.
  - intros order' r e Hg.
    destruct (guess_returns _ _ _ _ _ _ Hg) as (_ & _ & id & _ & _ & _ & Hne & Hr).
    exists id. split; assumption.
Qed.

End GuessClaims.
(** ** The route guesser on concrete stores *)

Section GuessExamples.
Import Sample.

(** Both orders of two keys are orders [range] may yield. *)
Example both_orders_possible :
  range_order (rd_init [east; west]) [1; 2] /\
  range_order (rd_init [east; west]) [2; 1].
Proof.
  unfold range_order.
  replace (elements (dom (rd_init [east; west]))) with [2; 1]
    by (vm_compute; reflexivity).
  split; [apply perm_swap | reflexivity].
Qed.

(** C3 does not hold as stated.  East (1) and West (2) run through the
    same point, where the bus was seen five times: their averages are
    equal and minimal.  With the keys yielded in the order 1, 2 the last
    of the tied keys is 2, and the guesser returns East, whose identifier
    is 1. *)
Lemma tie_goes_to_first_not_last :
  averages [east; west] five_seen 1 = averages [east; west] five_seen 2 /\
  tied (averages [east; west] five_seen) [1; 2] = [1; 2] /\
  last_tied (averages [east; west] five_seen) [1; 2] = Some 2 /\
  GuessRouteForVehicle (store [east; west] five_seen) now [1; 2] bus
    = Done (Some east, None) /\
  Route.ID east = 1.
Proof. vm_compute. repeat split; reflexivity. Qed.

(** With the keys yielded in the order 2, 1 it is West, whose identifier
    is 2, that is returned. *)
Lemma tie_resolves_to_first_witness :
  first_tied (averages [east; west] five_seen) [2; 1] = Some 2 /\
  snd (select_min (averages [east; west] five_seen) [2; 1]) = 2 /\
  GuessRouteForVehicle (store [east; west] five_seen) now [2; 1] bus
    = Done (Some west, None) /\
  Route.ID west = 2.
Proof.
  destruct (tie_resolves_to_first (store [east; west] five_seen) now bus
              [2; 1] [east; west] five_seen None 2)
    as (Hsel & _ & Hroute & _);
    [reflexivity | reflexivity | cbn; lia | vm_compute; reflexivity
    | vm_compute; reflexivity |].
  split; [vm_compute; reflexivity|]. split; [exact Hsel|].
  split; [|reflexivity].
  apply Hroute; [discriminate | reflexivity].
Defined.

(** Three samples in the last fifteen minutes: no guess. *)
Lemma too_few_updates_abstains_witness :
  GuessRouteForVehicle (store [east] three_seen) now [1] bus
    = Done (None, None).
Proof.
  apply (too_few_updates_abstains (store [east] three_seen) now bus
           [1] [east] three_seen);
    [reflexivity | reflexivity | cbn; lia].
Defined.

(** A disabled and an inactive route through the point of the samples,
    and East: East is returned. *)
Lemma never_returns_disabled_or_inactive_witness :
  exists id,
    Route (store [closed; idle; east] five_seen) id = (Some east, None) /\
    forall r', r' ∈ [closed; idle; east] -> Route.ID r' = id ->
               Route.Enabled r' = true /\ Route.Active r' = true.
Proof.
  apply (never_returns_disabled_or_inactive
           (store [closed; idle; east] five_seen) now bus [4; 5; 1]);
    [reflexivity | vm_compute; reflexivity].
Defined.

(** A route without points, and East: East is returned. *)
Lemma never_returns_route_without_points_witness :
  exists id,
    Route (store [blank; east] five_seen) id = (Some east, None) /\
    forall r', r' ∈ [blank; east] -> Route.ID r' = id -> Route.Points r' <> [].
Proof.
  apply (never_returns_route_without_points
           (store [blank; east] five_seen) now bus [6; 1]);
    [reflexivity | vm_compute; reflexivity].
Defined.

(** C5 does not hold as stated.  Zeroth runs through the point where
    the bus was seen five times and North a degree away: the minimum
    average is that of Zeroth, 0, which is at most 5.  Zeroth is enabled
    and active, has a point, and [ms.Route] would give it for its
    identifier; yet the guesser returns no route, in either order of the
    keys, because that identifier is 0. *)
Lemma minimum_at_key_zero_is_no_route :
  minimizes (averages [zeroth; north] five_seen) [0; 3] 0 = true /\
  (averages [zeroth; north] five_seen 0 <=? 5)%float = true /\
  Route.Enabled zeroth = true /\ Route.Active zeroth = true /\
  Route.Points zeroth = [stop] /\
  Route (store [zeroth; north] five_seen) 0 = (Some zeroth, None) /\
  GuessRouteForVehicle (store [zeroth; north] five_seen) now [0; 3] bus
    = Done (None, None) /\
  GuessRouteForVehicle (store [zeroth; north] five_seen) now [3; 0] bus
    = Done (None, None).
Proof. vm_compute. repeat split; reflexivity. Qed.

(** East at the samples and North a degree away: the minimum is that of
    East, below the threshold, and East is returned. *)
Lemma threshold_decides_on_minimum_witness :
  minimizes (averages [east; north] five_seen) [1; 3] 1 = true /\
  (averages [east; north] five_seen 1 <=? 5)%float = true /\
  snd (select_min (averages [east; north] five_seen) [1; 3]) = 1 /\
  GuessRouteForVehicle (store [east; north] five_seen) now [1; 3] bus
    = Done (Some east, None).
Proof.
  destruct (threshold_decides_on_minimum (store [east; north] five_seen)
              now bus [1; 3] [east; north] five_seen None 1) as [_ Hle];
    [reflexivity | reflexivity | cbn; lia | vm_compute; reflexivity |].
  destruct (Hle ltac:(vm_compute; reflexivity))
    as (id & _ & Hsel & _ & Hroute & _).
  split; [vm_compute; reflexivity|]. split; [vm_compute; reflexivity|].
  split; [vm_compute; reflexivity|].
  assert (Hid : id = 1) by (rewrite <- Hsel; vm_compute; reflexivity).
  subst id. apply Hroute; [discriminate | reflexivity].
Defined.

(** The route through the point of the samples has identifier 0: no
    route is returned. *)
Lemma route_zero_is_no_route_witness :
  GuessRouteForVehicle (store [north; zeroth] five_seen) now [3; 0] bus
    = Done (None, None) /\
  forall order' r e,
    GuessRouteForVehicle (store [north; zeroth] five_seen) now order' bus
      = Done (Some r, e) ->
    exists id, id <> 0 /\ Route (store [north; zeroth] five_seen) id = (Some r, e).
Proof.
  apply (route_zero_is_no_route (store [north; zeroth] five_seen) now bus
           [3; 0] [north; zeroth] five_seen None);
    [reflexivity | reflexivity | cbn; lia | vm_compute; reflexivity
    | vm_compute; reflexivity].
Defined.

(** The averages behind the examples: a route through the point of the
    samples averages 0, a route a degree away more than 50, and a
    disabled, an inactive and an empty route [+Inf]. *)
Example sample_averages :
  map (averages [east; north; closed; idle; blank] five_seen) [1; 3; 4; 5; 6]
  = [0%float; 51.127414284990216%float; infinity; infinity; infinity].
Proof. vm_compute. reflexivity. Qed.

(** Far from every route (C5, the branch above the threshold). *)
Example far_from_every_route :
  minimizes (averages [north; closed] five_seen) [3; 4] 3 = true /\
  (5 <? averages [north; closed] five_seen 3)%float = true /\
  GuessRouteForVehicle (store [north; closed] five_seen) now [3; 4] bus
    = Done (None, None).
Proof. vm_compute. repeat split; reflexivity. Qed.

End GuessExamples.
(** ** Timestamps: claims *)

(** The padding of lines 338-345 on a label of five bytes followed by
    fewer than six bytes: zeros between the two, up to eleven bytes. *)
Lemma padTime_short (a b c d e : ascii) (digits : string) :
  (String.length digits < 6)%nat ->
  let label := String a (String b (String c (String d (String e EmptyString)))) in
  padTime (String.append label digits)
    = Done (String.append label
              (String.append (zeros (6 - String.length digits)) digits)).
Proof.
  intros Hlen label. unfold padTime.
  assert (Hl : String.length (String.append label digits)
               = (5 + String.length digits)%nat) by reflexivity.
  rewrite Hl.
  destruct (Nat.ltb_spec (5 + String.length digits) 11) as [_|?]; [|lia].
  destruct (Nat.ltb_spec (5 + String.length digits) 5) as [?|_]; [lia|].
  replace (11 - (5 + String.length digits))%nat
    with (6 - String.length digits)%nat by lia.
  reflexivity.
Qed.

Lemma length_zeros (n : nat) : String.length (zeros n) = n.
Proof.
  induction n as [|n IH]; [reflexivity|].
  cbn [zeros String.length]. rewrite IH. reflexivity.
Qed.

Lemma length_append (x y : string) :
  String.length (String.append x y) = (String.length x + String.length y)%nat.
Proof.
  induction x as [|ch x IH]; [reflexivity|].
  change (S (String.length (String.append x y))
          = S (String.length x + String.length y)).
  rewrite IH. reflexivity.
Qed.

Lemma length_take (n : nat) (x : string) :
  (n <= String.length x)%nat -> String.length (strings.take n x) = n.
Proof.
  revert x. induction n as [|n IH]; intros [|ch x] Hn; cbn in *;
    try reflexivity; try lia.
  rewrite IH; [reflexivity|lia].
Qed.

Lemma length_drop (n : nat) (x : string) :
  (n <= String.length x)%nat ->
  String.length (strings.drop n x) = (String.length x - n)%nat.
Proof.
  revert x. induction n as [|n IH]; intros [|ch x] Hn; cbn in *;
    try reflexivity; try lia.
  rewrite IH; [reflexivity|lia].
Qed.

(** A padded time is eleven bytes long; a longer one is left as it is. *)
Lemma padTime_width (itrakTime padded : string) :
  padTime itrakTime = Done padded ->
  (String.length padded = Nat.max 11 (String.length itrakTime))%nat.
Proof.
  unfold padTime.
  pose proof (length_take 5 itrakTime) as Htake.
  pose proof (length_drop 5 itrakTime) as Hdrop.
  destruct (Nat.ltb_spec (String.length itrakTime) 11) as [Hlt|Hge].
  - destruct (Nat.ltb_spec (String.length itrakTime) 5) as [?|Hge];
      [discriminate|].
    remember (strings.take 5 itrakTime) as label.
    remember (strings.drop 5 itrakTime) as digits.
    intros [= <-]. rewrite !length_append, length_zeros.
    rewrite Htake, Hdrop by assumption. lia.
  - intros [= <-]. lia.
Qed.

(** C4.  The time [time:0] is padded to [time:000000], eleven bytes long,
    and with the date [date:01022006] it parses to January 2, 2006,
    00:00:00 (UTC), which is 1136160000 seconds after the epoch. *)
Theorem itrakTimeDate_pads_and_parses :
  padTime "time:0" = Done "time:000000"%string /\
  String.length "time:000000" = 11%nat /\
  itrakTimeDate "time:0" "date:01022006"
    = Done (time.Parse_date_time "date:01022006 time:000000") /\
  itrakTimeDate "time:0" "date:01022006" = Done (Ok (time.Date 2006 1 2 0 0 0)) /\
  time.Date 2006 1 2 0 0 0 = 1136160000.
Proof. repeat split; vm_compute; reflexivity. Qed.

(** ** handleVehicleData: claims *)

Section HandleClaims.
Context {St : Type} `{ModelService St}.
Variables (s : St) (now : Time) (order : list Z).

(** A record the grammar does not match makes line 160 panic. *)
Lemma no_match_panics (vehicleData : string) :
  regexp.FindAllStringSubmatch vehicleData = [] ->
  handleVehicleData s now order vehicleData = Panicked.
Proof. intros Hm. unfold handleVehicleData. rewrite Hm. reflexivity. Qed.

(** A panic in the handling of one record ends the handling of the batch. *)
Lemma handleAll_panics (before after : list string) (vehicleData : string)
    (s' : St) (done : list Outcome) :
  handleAll s now order before = Done (s', done) ->
  regexp.FindAllStringSubmatch vehicleData = [] ->
  handleAll s now order (before ++ vehicleData :: after) = Panicked.
Proof.
  revert s s' done.
  induction before as [|r before IH]; intros s0 s' done Hb Hm.
  - cbn [app handleAll]. unfold handleVehicleData. rewrite Hm. reflexivity.
  - cbn [app handleAll] in *.
    destruct (handleVehicleData s0 now order r) as [[s1 o]|]; [|discriminate].
    destruct (handleAll s1 now order before) as [[s2 os]|] eqn:Hrest;
      [|discriminate].
    rewrite (IH s1 s2 os Hrest Hm). reflexivity.
Qed.

(** C1, at its failing input.  The record [garbage] has no match of the
    grammar: [handleVehicleData] panics on it, and so does [update] when
    the request is answered, with status 200, with a feed body in which
    it precedes a well-formed record. *)
Theorem unmatched_record_panics (lastResponse : option DataFeedResponse.t)
    (header : http.Header) (before : Time) :
  regexp.FindAllStringSubmatch "garbage" = [] /\
  handleVehicleData s now order "garbage" = Panicked /\
  vehiclesData (String.append "garbageeof" (String.append Sample.record1 "eof"))
    = ["garbage"%string; Sample.record1] /\
  update (Updater.mk s lastResponse)
    (mkCycle
       (Response http.StatusOK header
          (Ok (String.append "garbageeof"
                 (String.append Sample.record1 "eof"))))
       now order before)
    = Panicked.
Proof.
  assert (Hm : regexp.FindAllStringSubmatch "garbage" = [])
    by (vm_compute; reflexivity).
  assert (Hv : vehiclesData
                 (String.append "garbageeof" (String.append Sample.record1 "eof"))
               = ["garbage"%string; Sample.record1])
    by (vm_compute; reflexivity).
  split; [exact Hm|]. split; [apply no_match_panics, Hm|].
  split; [exact Hv|].
  unfold update.
  cbn [fetched clock keys monthAgo setLastResponse Updater.ms].
  change (negb (http.StatusOK =? http.StatusOK)) with false. cbv iota.
  rewrite Hv.
  pose proof (handleAll_panics [] [Sample.record1] "garbage" s [] eq_refl Hm)
    as Hp.
  cbn [app] in Hp. rewrite Hp. reflexivity.
Qed.

Section Matched.
Variables (vehicleData : string) (m : list string) (rest : list (list string)).
Variables (vehicle : Vehicle.t) (newTime : Time) (lastUpdate : Location.t).

Let result : gmap string string := named_groups m.

Hypothesis Hmatch : regexp.FindAllStringSubmatch vehicleData = m :: rest.
Hypothesis Hvehicle :
  VehicleWithTrackerID s (strings.Replace (group result "id") "Vehicle ID:" "")
    = Ok vehicle.
Hypothesis Htime :
  itrakTimeDate (group result "time") (group result "date") = Done (Ok newTime).
Hypothesis Hlatest : LatestLocation s (Vehicle.ID vehicle) = Ok lastUpdate.

(** Up to the duplicate check: the comparison of line 193 decides. *)
Lemma handle_reaches_check :
  handleVehicleData s now order vehicleData =
  if time.Equal newTime (Location.Time lastUpdate)
  then Done (s, Skipped Duplicate)
  else storeUpdate s now order result vehicle newTime.
Proof.
  unfold handleVehicleData. rewrite Hmatch. unfold handleMatch.
  fold result. rewrite Hvehicle, Htime. cbn [run_bind]. rewrite Hlatest.
  reflexivity.
Qed.

(** C2, as the code has it.  A record whose timestamp equals that of the
    vehicle's latest stored location is discarded: the store is left as it
    was and [CreateLocation] is not called. *)
Theorem duplicate_of_latest_is_discarded :
  Location.Time lastUpdate = newTime ->
  handleVehicleData s now order vehicleData = Done (s, Skipped Duplicate).
Proof.
  intros Heq. rewrite handle_reaches_check.
  unfold time.Equal. rewrite Heq, Z.eqb_refl. reflexivity.
Qed.

(** C8.  A record whose timestamp differs from that of the vehicle's
    latest stored location, be it earlier or later, passes the duplicate
    check; when the route guess reports no error and the four numbers
    parse, a location with that timestamp is built and handed to
    [CreateLocation], whose store is the result. *)
Theorem differing_timestamp_is_stored (route : option Route.t)
    (latitude longitude heading speedKMH : float) :
  Location.Time lastUpdate <> newTime ->
  GuessRouteForVehicle s now order vehicle = Done (route, None) ->
  strconv.ParseFloat (strings.Replace (group result "lat") "lat:" "")
    = Ok latitude ->
  strconv.ParseFloat (strings.Replace (group result "lng") "lon:" "")
    = Ok longitude ->
  strconv.ParseFloat (strings.Replace (group result "heading") "dir:" "")
    = Ok heading ->
  strconv.ParseFloat (strings.Replace (group result "speed") "spd:" "")
    = Ok speedKMH ->
  let update :=
    Location.mk (strings.Replace (group result "id") "Vehicle ID:" "")
      latitude longitude heading (kphToMPH speedKMH) newTime
      (option_map Route.ID route) in
  handleVehicleData s now order vehicleData
    = Done (fst (CreateLocation s update),
            Created update (snd (CreateLocation s update))).
Proof.
  intros Hne Hg Hlat Hlng Hdir Hspd update. rewrite handle_reaches_check.
  unfold time.Equal.
  destruct (Z.eqb_spec newTime (Location.Time lastUpdate)) as [Heq|_];
    [congruence|].
  unfold storeUpdate. rewrite Hg, Hlat, Hlng, Hdir, Hspd.
  change (Location.mk _ _ _ _ _ _ _) with update.
  destruct (CreateLocation s update). reflexivity.
Qed.

End Matched.
End HandleClaims.
(** ** handleVehicleData on concrete stores *)

Section HandleExamples.
Import Sample.

(** C2 does not hold as stated.  The bus reports 09:30:15, then 09:30:25,
    then 09:30:15 again, each record handled after the one before.  The
    third timestamp equals that of a stored location of the bus, though
    not of the latest one (that of 09:30:25, the last created and the
    latest in time alike): the record is stored, and the store holds two
    locations of the bus with equal timestamps. *)
Lemma equal_timestamps_stored_twice :
  handleAll (store [east] []) now [1] [record1; record2; record1]
  = Done (store [east] [stored t1; stored t2; stored t1],
          [Created (stored t1) None; Created (stored t2) None;
           Created (stored t1) None]).
Proof. vm_compute. reflexivity. Qed.

(** The latest stored location is of 09:30:15, and so is the record. *)
Lemma duplicate_of_latest_is_discarded_witness :
  handleVehicleData (store [east] [stored t1]) now [1] record1
  = Done (store [east] [stored t1], Skipped Duplicate).
Proof.
  apply (duplicate_of_latest_is_discarded (store [east] [stored t1]) now [1]
           record1 (submatches record1) [] bus t1 (stored t1));
    vm_compute; reflexivity.
Defined.

(** Two records in a row with the same time and date: one location. *)
Example consecutive_duplicates_stored_once :
  handleAll (store [east] []) now [1] [record1; record1]
  = Done (store [east] [stored t1],
          [Created (stored t1) None; Skipped Duplicate]).
Proof. vm_compute. reflexivity. Qed.

(** The latest stored location is of 09:30:15; the record is of 09:30:05,
    ten seconds earlier, and is stored. *)
Lemma differing_timestamp_is_stored_witness :
  (t0 <? t1) = true /\
  handleVehicleData (store [east] [stored t1]) now [1] record0
  = Done (store [east] [stored t0; stored t1], Created (stored t0) None).
Proof.
  split; [reflexivity|].
  apply (differing_timestamp_is_stored (store [east] [stored t1]) now [1]
           record0 (submatches record0) [] bus t0 (stored t1)
           ltac:(vm_compute; reflexivity) ltac:(vm_compute; reflexivity)
           ltac:(vm_compute; reflexivity) ltac:(vm_compute; reflexivity)
           None 42.7301%float (-73.6764)%float 90%float 35.5%float);
    [vm_compute; discriminate | vm_compute; reflexivity ..].
Defined.

(** A record of the grammar with a new timestamp whose latitude does not
    parse is not stored. *)
Example unparsable_latitude_is_skipped :
  handleVehicleData (store [east] [stored t2]) now [1] record_bad_lat
  = Done (store [east] [stored t2], Skipped (BadLatitude (ErrSyntax "-"))).
Proof. vm_compute. reflexivity. Qed.

(** A record of an unknown vehicle is skipped. *)
Example unknown_vehicle_is_skipped :
  handleVehicleData (MemStore.mk [] [east] []) now [1] record1
  = Done (MemStore.mk [] [east] [], Skipped UnknownVehicle).
Proof. vm_compute. reflexivity. Qed.

End HandleExamples.
(** ** Splitting the feed (lines 125-128) *)

Lemma append_assoc (x y z : string) :
  String.append (String.append x y) z = String.append x (String.append y z).
Proof.
  induction x as [|c x IH]; [reflexivity|].
  change (String c (String.append (String.append x y) z)
          = String c (String.append x (String.append y z))).
  rewrite IH. reflexivity.
Qed.

Lemma append_empty_r (x : string) : String.append x EmptyString = x.
Proof.
  induction x as [|c x IH]; [reflexivity|].
  change (String c (String.append x EmptyString) = String c x).
  rewrite IH. reflexivity.
Qed.

Lemma HasPrefix_split (s pre : string) :
  strings.HasPrefix s pre = true ->
  s = String.append pre (strings.drop (String.length pre) s).
Proof.
  revert s. induction pre as [|a pre IH]; intros s Hp; [reflexivity|].
  destruct s as [|b s]; [discriminate|].
  cbn [strings.HasPrefix] in Hp. apply andb_true_iff in Hp as [Hab Hp].
  apply Ascii.eqb_eq in Hab. subst b.
  change (String a s = String a (String.append pre
            (strings.drop (String.length pre) s))).
  rewrite <- (IH s Hp). reflexivity.
Qed.

Lemma HasPrefix_append (pre rest : string) :
  strings.HasPrefix (String.append pre rest) pre = true.
Proof.
  induction pre as [|a pre IH]; [destruct rest; reflexivity|].
  change (String.append (String a pre) rest)
    with (String a (String.append pre rest)).
  cbn [strings.HasPrefix]. rewrite Ascii.eqb_refl, IH. reflexivity.
Qed.

(** Passing over [skip] bytes: the bytes are not looked at. *)
Lemma split_from_skip (sep : string) (x rest cur : string) :
  strings.split_from sep (String.length x) cur (String.append x rest)
  = strings.split_from sep 0 cur rest.
Proof.
  induction x as [|c x IH]; [destruct rest; reflexivity|].
  exact IH.
Qed.

Lemma split_from_nonempty (sep : string) (k : nat) (cur s : string) :
  strings.split_from sep k cur s <> [].
Proof.
  revert k cur. induction s as [|ch s IH]; intros k cur;
    cbn [strings.split_from]; [discriminate|].
  destruct k; [|apply IH].
  destruct (strings.HasPrefix _ _); [discriminate|apply IH].
Qed.

Lemma Join_cons (x : string) (l : list string) (sep : string) :
  l <> [] ->
  strings_more.Join (x :: l) sep
  = String.append x (String.append sep (strings_more.Join l sep)).
Proof. destruct l; [congruence|reflexivity]. Qed.

Lemma split_from_join (sep : string) (c0 : ascii) (sep' : string) :
  sep = String c0 sep' ->
  forall (n : nat) (s cur : string),
    (String.length s <= n)%nat ->
    strings_more.Join (strings.split_from sep 0 cur s) sep = String.append cur s.
Proof.
  intros Hsep. induction n as [|n IH]; intros s cur Hlen.
  - destruct s; [|cbn in Hlen; lia]. symmetry. apply append_empty_r.
  - destruct s as [|c s]; [symmetry; apply append_empty_r|].
    cbn [strings.split_from].
    destruct (strings.HasPrefix (String c s) sep) eqn:Hp.
    + rewrite Hsep in Hp. cbn [strings.HasPrefix] in Hp.
      apply andb_true_iff in Hp as [Hc Hp]. apply Ascii.eqb_eq in Hc.
      pose proof (HasPrefix_split _ _ Hp) as Hs.
      set (rest := strings.drop (String.length sep') s) in *.
      assert (Hk : (String.length sep - 1)%nat = String.length sep').
      { rewrite Hsep. cbn [String.length]. lia. }
      rewrite Hk, Hs, split_from_skip.
      assert (Hrest : (String.length rest <= n)%nat).
      { cbn [String.length] in Hlen.
        assert (String.length s = (String.length sep' + String.length rest)%nat).
        { rewrite Hs at 1. apply length_append. }
        lia. }
      rewrite Join_cons by apply split_from_nonempty.
      rewrite (IH rest EmptyString Hrest).
      subst c. rewrite Hsep.
      change (String.append EmptyString rest) with rest.
      change (String.append (String c0 sep') rest)
        with (String c0 (String.append sep' rest)).
      reflexivity.
    + rewrite (IH s _ ltac:(cbn in Hlen; lia)).
      rewrite append_assoc. reflexivity.
Qed.

(** A piece without the mark [eof] is read as a whole, up to the mark
    that follows it or to the end. *)
Lemma eof_not_at (c : ascii) (r rest : string) :
  strings.HasPrefix (String c r) "eof" = false ->
  strings.HasPrefix r "eof" = false \/ r = EmptyString ->
  strings.HasPrefix (String c (String.append r (String.append "eof" rest))) "eof"
  = false.
Proof.
  intros Hc _.
  assert (Hstep : forall a b x y, Ascii.eqb a b = false ->
            strings.HasPrefix (String b x) (String a y) = false).
  { intros a b x y Hab. cbn [strings.HasPrefix]. rewrite Hab. reflexivity. }
  destruct (Ascii.eqb "e" c) eqn:E1; [|apply Hstep, E1].
  apply Ascii.eqb_eq in E1. subst c.
  destruct r as [|d r]; [vm_compute; reflexivity|].
  change (String.append (String d r) ?x) with (String d (String.append r x)).
  change (strings.HasPrefix (String d (String.append r (String.append "eof" rest))) "of"
          = false).
  destruct (Ascii.eqb "o" d) eqn:E2; [|apply Hstep, E2].
  apply Ascii.eqb_eq in E2. subst d.
  destruct r as [|f r]; [vm_compute; reflexivity|].
  change (String.append (String f r) ?x) with (String f (String.append r x)).
  change (strings.HasPrefix (String f (String.append r (String.append "eof" rest))) "f"
          = false).
  destruct (Ascii.eqb "f" f) eqn:E3; [|apply Hstep, E3].
  apply Ascii.eqb_eq in E3. subst f. destruct r; vm_compute in Hc; discriminate.
Qed.

Lemma split_from_record (r rest cur : string) :
  strings_more.Contains r "eof" = false ->
  strings.split_from "eof" 0 cur (String.append r (String.append "eof" rest))
  = String.append cur r :: strings.split_from "eof" 0 EmptyString rest.
Proof.
  revert cur. induction r as [|c r IH]; intros cur Hno.
  - change (String.append EmptyString ?x) with x.
    rewrite append_empty_r.
    pose proof (HasPrefix_append "eof" rest) as Hp.
    change (String.append "eof" rest)
      with (String "e" (String.append "of" rest)) in *.
    cbn [strings.split_from]. rewrite Hp.
    change (String.length "eof" - 1)%nat with (String.length "of").
    rewrite split_from_skip. reflexivity.
  - cbn [strings_more.Contains] in Hno.
    apply orb_false_iff in Hno as [Hc Hr].
    change (String.append (String c r) ?x) with (String c (String.append r x)).
    cbn [strings.split_from].
    rewrite (eof_not_at c r rest Hc) by (destruct r; auto;
      cbn [strings_more.Contains] in Hr; apply orb_false_iff in Hr; tauto).
    rewrite (IH _ Hr), append_assoc. reflexivity.
Qed.

Lemma split_from_no_mark (t cur : string) :
  strings_more.Contains t "eof" = false ->
  strings.split_from "eof" 0 cur t = [String.append cur t].
Proof.
  revert cur. induction t as [|c t IH]; intros cur Hno.
  - rewrite append_empty_r. reflexivity.
  - cbn [strings_more.Contains] in Hno.
    apply orb_false_iff in Hno as [Hc Hr].
    cbn [strings.split_from]. rewrite Hc, (IH _ Hr), append_assoc.
    reflexivity.
Qed.

Lemma split_feed_body (records : list string) (tail : string) :
  Forall (fun r => strings_more.Contains r "eof" = false) records ->
  strings_more.Contains tail "eof" = false ->
  strings.Split (feed_body records tail) "eof" = records ++ [tail].
Proof.
  unfold strings.Split. intros Hrs Ht.
  induction Hrs as [|r records Hr _ IH]; cbn [feed_body app].
  - apply (split_from_no_mark tail EmptyString Ht).
  - rewrite (split_from_record r _ EmptyString Hr), IH. reflexivity.
Qed.

(** X1.  Records that hold no [eof], each followed by [eof], are read
    back one for one; what follows the last mark is dropped. *)
Theorem vehiclesData_reads_back (records : list string) (tail : string) :
  Forall (fun r => strings_more.Contains r "eof" = false) records ->
  strings_more.Contains tail "eof" = false ->
  vehiclesData (feed_body records tail) = records.
Proof.
  intros Hrs Ht. unfold vehiclesData.
  rewrite (split_feed_body records tail Hrs Ht). apply removelast_last.
Qed.

(** X2.  Nothing of a body is lost but the marks: its records, each
    followed by [eof], and then the piece that was dropped, spell the
    body.  The split has at least that one piece, so that the slice of
    line 128 is in range. *)
Theorem vehiclesData_spells_body (body : string) :
  strings.Split body "eof" <> [] /\
  length (vehiclesData body) = (length (strings.Split body "eof") - 1)%nat /\
  feed_body (vehiclesData body) (List.last (strings.Split body "eof") EmptyString)
  = body.
Proof.
  unfold vehiclesData.
  pose proof (split_from_join "eof" "e" "of" eq_refl (String.length body) body
                EmptyString (Nat.le_refl _)) as Hj.
  fold (strings.Split body "eof") in Hj.
  change (String.append EmptyString body) with body in Hj.
  assert (Hne : strings.Split body "eof" <> [])
    by apply split_from_nonempty.
  split; [exact Hne|].
  destruct (exists_last Hne) as (l & x & Hl). rewrite Hl in *.
  rewrite removelast_last, last_last, length_app. cbn [length].
  split; [lia|].
  rewrite <- Hj. clear. induction l as [|r l IH]; [reflexivity|].
  cbn [feed_body app]. rewrite IH.
  symmetry. apply Join_cons. destruct l; discriminate.
Qed.

Section SplitExtras.
Context {St : Type} `{ModelService St}.

(** X3.  When the request is answered, with status 200, with a body
    without the mark [eof], the empty body among them, there is no
    record: the call of [update] does not panic, the response becomes
    the last response, and the store is the one the pruning leaves of
    the store as it was. *)
Theorem update_without_mark (u : Updater.t St) (c : Cycle)
    (header : http.Header) (body : string) :
  fetched c = Response http.StatusOK header (Ok body) ->
  strings_more.Contains body "eof" = false ->
  vehiclesData body = [] /\
  update u c
  = Done (Updater.mk
            (fst (DeleteLocationsBefore (Updater.ms u) (monthAgo c)))
            (Some (DataFeedResponse.mk body http.StatusOK header))).
Proof.
  intros Hf Hno.
  assert (Hv : vehiclesData body = []).
  { unfold vehiclesData, strings.Split.
    rewrite (split_from_no_mark body EmptyString Hno). reflexivity. }
  split; [exact Hv|]. unfold update. rewrite Hf.
  change (negb (http.StatusOK =? http.StatusOK)) with false. cbv iota.
  cbn [setLastResponse Updater.ms Updater.lastDataFeedResponse].
  rewrite Hv. cbn [handleAll].
  destruct (DeleteLocationsBefore (Updater.ms u) (monthAgo c)) as [s' r].
  reflexivity.
Qed.

End SplitExtras.
(** ** Timestamps of the feed (lines 336-349) *)

Lemma digit_char_spec (d : Z) :
  0 <= d <= 9 ->
  strings.isDigit (itrak.digit_char d) = true /\
  strings.digitVal (itrak.digit_char d) = d.
Proof.
  intros Hd.
  assert (Hc : d = 0 \/ d = 1 \/ d = 2 \/ d = 3 \/ d = 4 \/ d = 5 \/ d = 6
               \/ d = 7 \/ d = 8 \/ d = 9) by lia.
  repeat (destruct Hc as [->|Hc]; [split; reflexivity|]).
  subst d. split; reflexivity.
Qed.

Lemma getnum_two_digits (n : Z) (rest : string) (fixed : bool) :
  0 <= n < 100 ->
  time.getnum (itrak.two_digits n rest) fixed = Some (n, rest).
Proof.
  intros Hn. unfold itrak.two_digits, time.getnum.
  destruct (digit_char_spec (n / 10)) as [Ha Hva].
  { split; [apply Z.div_pos; lia | apply Z.lt_succ_r, Z.div_lt_upper_bound; lia]. }
  destruct (digit_char_spec (n mod 10)) as [Hb Hvb].
  { pose proof (Z.mod_pos_bound n 10). lia. }
  rewrite Ha, Hb, Hva, Hvb. f_equal. f_equal.
  pose proof (Z.div_mod n 10). lia.
Qed.

Lemma getyear_four_digits (y : Z) (rest : string) :
  0 <= y < 10000 ->
  time.getyear (itrak.four_digits y rest) = Some (y, rest).
Proof.
  intros Hy. unfold itrak.four_digits, itrak.two_digits, time.getyear.
  assert (Hhi : 0 <= y / 100 < 100).
  { split; [apply Z.div_pos; lia | apply Z.div_lt_upper_bound; lia]. }
  assert (Hlo : 0 <= y mod 100 < 100) by (apply Z.mod_pos_bound; lia).
  destruct (digit_char_spec (y / 100 / 10)) as [Ha Hva].
  { split; [apply Z.div_pos; lia | apply Z.lt_succ_r, Z.div_lt_upper_bound; lia]. }
  destruct (digit_char_spec ((y / 100) mod 10)) as [Hb Hvb].
  { pose proof (Z.mod_pos_bound (y / 100) 10). lia. }
  destruct (digit_char_spec (y mod 100 / 10)) as [Hc Hvc].
  { split; [apply Z.div_pos; lia | apply Z.lt_succ_r, Z.div_lt_upper_bound; lia]. }
  destruct (digit_char_spec ((y mod 100) mod 10)) as [Hd Hvd].
  { pose proof (Z.mod_pos_bound (y mod 100) 10). lia. }
  rewrite Ha, Hb, Hc, Hd, Hva, Hvb, Hvc, Hvd. cbn [andb]. f_equal. f_equal.
  pose proof (Z.div_mod y 100). pose proof (Z.div_mod (y / 100) 10).
  pose proof (Z.div_mod (y mod 100) 10). lia.
Qed.

Lemma in_below (n : nat) (x : Z) :
  0 <= x < Z.of_nat n -> In x (itrak.below n).
Proof.
  intros Hx. unfold itrak.below. apply in_map_iff.
  exists (Z.to_nat x). split; [lia|]. apply in_seq. lia.
Qed.

(** Every time of the clock, written as the feed writes it, is padded to
    its six digits (checked on each of the 86400 times). *)
Lemma padTime_every_clock_time :
  forallb (fun h =>
    forallb (fun m =>
      forallb (fun s => itrak.pads_to_six h m s) (itrak.below 60))
      (itrak.below 60))
    (itrak.below 24) = true.
Proof. vm_compute. reflexivity. Qed.

Lemma valid_clock_bounds (hour min sec : Z) :
  itrak.valid_clock hour min sec = true ->
  0 <= hour < 24 /\ 0 <= min < 60 /\ 0 <= sec < 60.
Proof. unfold itrak.valid_clock, time.in_range. lia. Qed.

Lemma padTime_time_field (hour min sec : Z) :
  itrak.valid_clock hour min sec = true ->
  padTime (itrak.time_field hour min sec)
  = Done (itrak.time_field_padded hour min sec).
Proof.
  intros Hv. apply valid_clock_bounds in Hv as (Hh & Hm & Hs).
  pose proof padTime_every_clock_time as Hall.
  rewrite forallb_forall in Hall.
  specialize (Hall hour (in_below 24 hour Hh)).
  rewrite forallb_forall in Hall.
  specialize (Hall min (in_below 60 min Hm)).
  rewrite forallb_forall in Hall.
  specialize (Hall sec (in_below 60 sec Hs)).
  unfold itrak.pads_to_six in Hall.
  destruct (padTime (itrak.time_field hour min sec)) as [padded|];
    [|discriminate].
  apply String.eqb_eq in Hall. rewrite Hall. reflexivity.
Qed.

Lemma parse_written_fields (year month day hour min sec : Z) :
  itrak.valid_date year month day = true ->
  itrak.valid_clock hour min sec = true ->
  time.Parse_date_time
    (String.append (itrak.date_field year month day)
       (String.append " " (itrak.time_field_padded hour min sec)))
  = Ok (time.Date year month day hour min sec).
Proof.
  intros Hd Hc. unfold itrak.valid_date, itrak.valid_clock in *.
  apply andb_true_iff in Hd as [Hd Hday]. apply andb_true_iff in Hd as [Hy Hm].
  apply andb_true_iff in Hc as [Hc Hs]. apply andb_true_iff in Hc as [Hh Hmi].
  assert (By : 0 <= year < 10000) by (unfold time.in_range in Hy; lia).
  assert (Bm : 0 <= month < 100) by (unfold time.in_range in Hm; lia).
  assert (Bd : 0 <= day < 100).
  { unfold time.in_range, time.daysIn in Hday.
    destruct (month =? 2); [destruct (time.isLeap year)|];
      [| |destruct ((month =? 4) || (month =? 6) || (month =? 9) || (month =? 11))%bool];
      lia. }
  assert (Bh : 0 <= hour < 100) by (unfold time.in_range in Hh; lia).
  assert (Bmi : 0 <= min < 100) by (unfold time.in_range in Hmi; lia).
  assert (Bs : 0 <= sec < 100) by (unfold time.in_range in Hs; lia).
  set (clock := itrak.two_digits hour
                  (itrak.two_digits min (itrak.two_digits sec EmptyString))).
  set (tail := String " " (String "t" (String "i" (String "m" (String "e"
                 (String ":" clock)))))).
  assert (Hvalue :
    String.append (itrak.date_field year month day)
      (String.append " " (itrak.time_field_padded hour min sec))
    = String "d" (String "a" (String "t" (String "e" (String ":"
        (itrak.two_digits month (itrak.two_digits day
           (itrak.four_digits year tail)))))))).
  { unfold itrak.date_field, itrak.date_digits, itrak.time_field_padded,
      itrak.four_digits,
      itrak.two_digits, tail, clock. reflexivity. }
  rewrite Hvalue. unfold time.Parse_date_time.
  change (time.skip (String "d" (String "a" (String "t" (String "e"
            (String ":" ?v))))) "date:") with (Some v).
  cbv beta iota.
  rewrite getnum_two_digits by assumption. rewrite Hm. cbv beta iota.
  rewrite getnum_two_digits by assumption. cbv beta iota.
  rewrite getyear_four_digits by assumption. cbv beta iota.
  change (time.skip tail " time:") with (Some clock).
  cbv beta iota. unfold clock.
  rewrite getnum_two_digits by assumption. rewrite Hh. cbv beta iota.
  rewrite getnum_two_digits by assumption. rewrite Hmi. cbv beta iota.
  rewrite getnum_two_digits by assumption. rewrite Hs. cbv beta iota.
  rewrite Hday. reflexivity.
Qed.

(** X4.  Every date of the calendar and time of the clock, with the time
    written as the number HHMMSS without leading zeros, is read as that
    instant. *)
Theorem itrakTimeDate_reads_written_time (year month day hour min sec : Z) :
  itrak.valid_date year month day = true ->
  itrak.valid_clock hour min sec = true ->
  itrakTimeDate (itrak.time_field hour min sec) (itrak.date_field year month day)
  = Done (Ok (time.Date year month day hour min sec)).
Proof.
  intros Hd Hc. unfold itrakTimeDate.
  rewrite (padTime_time_field hour min sec Hc). cbn [run_bind].
  rewrite (parse_written_fields year month day hour min sec Hd Hc).
  reflexivity.
Qed.

Lemma itrakTimeDate_panics_short (itrakTime itrakDate : string) :
  itrakTimeDate itrakTime itrakDate = Panicked ->
  (String.length itrakTime < 5)%nat.
Proof.
  unfold itrakTimeDate, padTime.
  destruct (Nat.ltb_spec (String.length itrakTime) 11) as [H11|H11];
    [destruct (Nat.ltb_spec (String.length itrakTime) 5) as [H5|H5]|];
    cbn [run_bind]; intros Hx; try discriminate. exact H5.
Qed.

(** X5.  [itrakTimeDate] panics on the time strings of fewer than five
    bytes, and on no other. *)
Theorem itrakTimeDate_panics_iff (itrakTime itrakDate : string) :
  itrakTimeDate itrakTime itrakDate = Panicked <->
  (String.length itrakTime < 5)%nat.
Proof.
  unfold itrakTimeDate, padTime.
  destruct (Nat.ltb_spec (String.length itrakTime) 11) as [H11|H11];
    [destruct (Nat.ltb_spec (String.length itrakTime) 5) as [H5|H5]|];
    cbn [run_bind]; split; intros Hx; try discriminate; try lia; reflexivity.
Qed.

(** X6.  A padded time has eleven bytes, or as many as it had when it
    had more; it keeps the five bytes of the label and the bytes after
    them, with only zeros between; and padding it again changes
    nothing. *)
Theorem padTime_pads_once (itrakTime padded : string) :
  padTime itrakTime = Done padded ->
  String.length padded = Nat.max 11 (String.length itrakTime) /\
  padded = String.append (strings.take 5 itrakTime)
             (String.append (zeros (String.length padded - String.length itrakTime))
                (strings.drop 5 itrakTime)) /\
  padTime padded = Done padded.
Proof.
  intros Hp. pose proof (padTime_width _ _ Hp) as Hw.
  split; [exact Hw|]. split.
  - revert Hp. unfold padTime.
    destruct (Nat.ltb_spec (String.length itrakTime) 11) as [H11|H11].
    + destruct (Nat.ltb_spec (String.length itrakTime) 5) as [H5|H5];
        [discriminate|].
      intros [= Hp]. rewrite Hw.
      replace (Nat.max 11 (String.length itrakTime) - String.length itrakTime)%nat
        with (11 - String.length itrakTime)%nat by lia.
      rewrite <- Hp. apply append_assoc.
    + intros [= <-].
      replace (String.length itrakTime - String.length itrakTime)%nat
        with 0%nat by lia.
      change (String.append (zeros 0) ?x) with x.
      clear. assert (G : forall n s, String.append (strings.take n s)
                            (strings.drop n s) = s).
      { induction n as [|n IH]; intros [|c s]; try reflexivity.
        cbn [strings.take strings.drop].
        change (String c (String.append (strings.take n s) (strings.drop n s))
                = String c s). rewrite IH. reflexivity. }
      symmetry. apply G.
  - unfold padTime.
    destruct (Nat.ltb_spec (String.length padded) 11) as [H11|H11];
      [lia|reflexivity].
Qed.
(** ** The groups of a matched record (lines 160-170) *)

Lemma span_all_bytes (p : ascii -> bool) (s a b : string) :
  strings.span p s = (a, b) -> all_bytes p a = true.
Proof.
  revert a b. induction s as [|c s IH]; intros a b Hs; cbn [strings.span] in Hs.
  - injection Hs as <- <-. reflexivity.
  - destruct (p c) eqn:Hc.
    + destruct (strings.span p s) as [a' b'] eqn:Hs'.
      injection Hs as <- <-. cbn [all_bytes]. rewrite Hc, (IH a' b' eq_refl).
      reflexivity.
    + injection Hs as <- <-. reflexivity.
Qed.

Lemma match_fields_groups (fs : list regexp.field) (first : bool)
    (s rest : string) (groups : list string) :
  regexp.match_fields first fs s = Some (groups, rest) -> groups_of fs groups.
Proof.
  revert first s groups.
  induction fs as [|f fs IH]; intros first s groups Hm;
    cbn [regexp.match_fields] in Hm.
  - injection Hm as <- <-. exact I.
  - destruct (if first then Some s else regexp.strip_prefix " " s) as [s0|];
      [|discriminate].
    destruct (regexp.strip_prefix (regexp.flabel f) s0) as [s1|]; [|discriminate].
    destruct (strings.span (regexp.fclass f) s1) as [v rest1] eqn:Hspan.
    destruct v as [|c v]; [discriminate|].
    destruct (regexp.match_fields false fs rest1) as [[groups' rest']|] eqn:Hrec;
      [|discriminate].
    injection Hm as <- <-. cbn [groups_of].
    split; [reflexivity|]. split; [discriminate|].
    split; [apply (span_all_bytes _ _ _ _ Hspan)|].
    apply (IH _ _ _ Hrec).
Qed.

Lemma find_from_head (k : nat) (s : string) (m : list string)
    (ms : list (list string)) :
  regexp.find_from k s = m :: ms -> exists s', regexp.match_here s' = Some m.
Proof.
  revert k. induction s as [|c s IH]; intros k Hf; cbn [regexp.find_from] in Hf;
    [discriminate|].
  destruct k as [|k]; [|apply (IH _ Hf)].
  destruct (regexp.match_here (String c s)) as [m'|] eqn:Hm.
  - injection Hf as <- _. eauto.
  - apply (IH _ Hf).
Qed.

(** The submatches of a match: the whole match, then the groups of the
    nine fields. *)
Lemma first_match_groups (vehicleData : string) (m : list string)
    (ms : list (list string)) :
  regexp.FindAllStringSubmatch vehicleData = m :: ms ->
  exists w groups, m = w :: groups /\ groups_of regexp.dataFields groups.
Proof.
  intros Hf. destruct (find_from_head _ _ _ _ Hf) as (s' & Hm).
  unfold regexp.match_here in Hm.
  destruct (regexp.match_fields true regexp.dataFields s')
    as [[groups rest]|] eqn:Hg; [|discriminate].
  injection Hm as <-. eexists _, groups. split; [reflexivity|].
  apply (match_fields_groups _ _ _ _ _ Hg).
Qed.

(** The named groups of a match, one by one. *)
Lemma first_match_named (vehicleData : string) (m : list string)
    (ms : list (list string)) :
  regexp.FindAllStringSubmatch vehicleData = m :: ms ->
  exists id lat lng heading speed lock tm date status,
    let result := named_groups m in
    (group result "id" = String.append "Vehicle ID:" id /\
     group result "lat" = String.append "lat:" lat /\
     group result "lng" = String.append "lon:" lng /\
     group result "heading" = String.append "dir:" heading /\
     group result "speed" = String.append "spd:" speed /\
     group result "lock" = String.append "lck:" lock /\
     group result "time" = String.append "time:" tm /\
     group result "date" = String.append "date:" date /\
     group result "status" = String.append "trig:" status) /\
    (id <> EmptyString /\ all_bytes regexp.digit_dot id = true) /\
    (all_bytes regexp.digit_dot_dash lat = true /\
     all_bytes regexp.digit_dot_dash lng = true /\
     all_bytes regexp.digit_dot_dash heading = true /\
     all_bytes regexp.digit_dot_dash speed = true /\
     all_bytes regexp.digit_dot_dash lock = true) /\
    (tm <> EmptyString /\ all_bytes regexp.digit tm = true /\
     date <> EmptyString /\ all_bytes regexp.digit date = true /\
     all_bytes regexp.digit status = true).
Proof.
  intros Hf. destruct (first_match_groups _ _ _ Hf) as (w & groups & -> & Hg).
  unfold regexp.dataFields in Hg.
  do 18 (destruct groups as [|? groups]; [cbn [groups_of] in Hg; tauto|]).
  destruct groups; [|cbn [groups_of] in Hg; tauto].
  cbn [groups_of regexp.flabel regexp.fclass] in Hg.
  destruct Hg as (-> & Hid & Aid & -> & _ & Alat & -> & _ & Alng & -> & _ & Adir
                  & -> & _ & Aspd & -> & _ & Alck & -> & Htm & Atm
                  & -> & Hdate & Adate & -> & _ & Astat & _).
  do 9 eexists. cbv zeta.
  split; [repeat split; vm_compute; reflexivity|].
  repeat split; assumption.
Qed.

Lemma replace_from_skip (old new x rest : string) :
  strings.replace_from old new (String.length x) (String.append x rest)
  = strings.replace_from old new 0 rest.
Proof.
  induction x as [|c x IH]; [destruct rest; reflexivity|exact IH].
Qed.

Lemma replace_from_untouched (a : ascii) (old' : string) (p : ascii -> bool)
    (v : string) :
  p a = false -> all_bytes p v = true ->
  strings.replace_from (String a old') EmptyString 0 v = v.
Proof.
  intros Ha. induction v as [|c v IH]; intros Hv; [reflexivity|].
  cbn [all_bytes] in Hv. apply andb_true_iff in Hv as [Hc Hv].
  cbn [strings.replace_from strings.HasPrefix].
  destruct (Ascii.eqb_spec a c) as [->|_]; [congruence|].
  cbn [andb]. rewrite (IH Hv). reflexivity.
Qed.

(** Removing a label from a group leaves the value, when no byte of the
    value can start the label. *)
Lemma Replace_label (a : ascii) (label' : string) (p : ascii -> bool)
    (v : string) :
  p a = false -> all_bytes p v = true ->
  strings.Replace (String.append (String a label') v) (String a label')
    EmptyString = v.
Proof.
  intros Ha Hv. unfold strings.Replace.
  pose proof (HasPrefix_append (String a label') v) as Hp.
  change (String.append (String a label') v)
    with (String a (String.append label' v)) in *.
  cbn [strings.replace_from]. rewrite Hp.
  change (String.length (String a label') - 1)%nat with (String.length label' - 0)%nat.
  rewrite Nat.sub_0_r, replace_from_skip.
  change (String.append EmptyString ?x) with x.
  apply (replace_from_untouched a label' p v Ha Hv).
Qed.

Section HandleExtras.
Context {St : Type} `{ModelService St}.
Variables (s : St) (now : Time) (order : list Z).

(** [storeUpdate] changes the store through [CreateLocation] alone. *)
Lemma storeUpdate_effect (result : gmap string string) (vehicle : Vehicle.t)
    (newTime : Time) (s' : St) (o : Outcome) :
  storeUpdate s now order result vehicle newTime = Done (s', o) ->
  match o with
  | Skipped _ => s' = s
  | Created update err =>
      CreateLocation s update = (s', err) /\
      Location.Time update = newTime /\
      Location.TrackerID update
      = strings.Replace (group result "id") "Vehicle ID:" ""
  end.
Proof.
  unfold storeUpdate.
  destruct (GuessRouteForVehicle s now order vehicle) as [[route [e|]]|];
    [intros [= <- <-]; reflexivity| |discriminate].
  repeat (match goal with
          | |- context [strconv.ParseFloat ?x] =>
              destruct (strconv.ParseFloat x);
              [|intros [= <- <-]; reflexivity]
          end).
  destruct (CreateLocation s _) as [s1 err] eqn:Hc.
  intros [= <- <-]. repeat split. exact Hc.
Qed.

(** X8.  A location is created only for a record of the grammar whose
    tracker identifier, made of digits and points, names a known
    vehicle, and whose timestamp differs from that of the vehicle's
    latest location; the location carries that identifier and that
    timestamp. *)
Theorem created_location_is_known_and_new (vehicleData : string) (s' : St)
    (update : Location.t) (err : option error) :
  handleVehicleData s now order vehicleData = Done (s', Created update err) ->
  exists m ms vehicle,
    regexp.FindAllStringSubmatch vehicleData = m :: ms /\
    Location.TrackerID update <> EmptyString /\
    all_bytes regexp.digit_dot (Location.TrackerID update) = true /\
    group (named_groups m) "id"
    = String.append "Vehicle ID:" (Location.TrackerID update) /\
    VehicleWithTrackerID s (Location.TrackerID update) = Ok vehicle /\
    itrakTimeDate (group (named_groups m) "time") (group (named_groups m) "date")
    = Done (Ok (Location.Time update)) /\
    forall lastUpdate,
      LatestLocation s (Vehicle.ID vehicle) = Ok lastUpdate ->
      Location.Time lastUpdate <> Location.Time update.
Proof.
  unfold handleVehicleData, handleMatch.
  destruct (regexp.FindAllStringSubmatch vehicleData) as [|m ms] eqn:Hf;
    [discriminate|].
  destruct (first_match_named _ _ _ Hf)
    as (id & lat & lng & hd & spd & lck & tm & dt & st & Hnamed & [Hid Aid] & _).
  cbv zeta in Hnamed. destruct Hnamed as (Gid & _).
  assert (Hrep : strings.Replace (group (named_groups m) "id") "Vehicle ID:" ""
                 = id).
  { rewrite Gid. apply (Replace_label "V" "ehicle ID:" regexp.digit_dot id);
      [reflexivity|exact Aid]. }
  rewrite Hrep.
  destruct (VehicleWithTrackerID s id) as [vehicle|e] eqn:Hv.
  2:{ destruct e; discriminate. }
  destruct (itrakTimeDate _ _) as [[newTime|e]|] eqn:Ht; cbn [run_bind];
    [|discriminate|discriminate].
  assert (Hstore : storeUpdate s now order (named_groups m) vehicle newTime
                   = Done (s', Created update err) ->
                   Location.Time update = newTime /\
                   Location.TrackerID update = id).
  { intros Hs. apply storeUpdate_effect in Hs.
    destruct Hs as (_ & Htime & Htid). rewrite Hrep in Htid. tauto. }
  intros Hrun. exists m, ms, vehicle.
  assert (Hboth : Location.Time update = newTime /\
                  Location.TrackerID update = id /\
                  forall lastUpdate,
                    LatestLocation s (Vehicle.ID vehicle) = Ok lastUpdate ->
                    Location.Time lastUpdate <> newTime).
  { destruct (LatestLocation s (Vehicle.ID vehicle)) as [lastUpdate|e] eqn:Hl.
    - unfold time.Equal in Hrun.
      destruct (Z.eqb_spec newTime (Location.Time lastUpdate)) as [|Hne];
        [discriminate|].
      destruct (Hstore Hrun) as [? ?]. repeat split; try assumption.
      intros l [= <-]. congruence.
    - destruct e; try discriminate.
      destruct (Hstore Hrun) as [? ?]. repeat split; try assumption.
      intros l Hl'. discriminate. }
  destruct Hboth as (-> & -> & Hnew).
  repeat split; try assumption; try reflexivity.
Qed.

(** On a record of the grammar the time field has its label and a digit,
    so that [itrakTimeDate] returns: a call of [handleVehicleData] that
    panics either found no match, or got a [nil] route with a [nil] error
    from [ms.Route] for a key other than 0. *)
Lemma handle_panics_only (vehicleData : string) :
  handleVehicleData s now order vehicleData = Panicked ->
  regexp.FindAllStringSubmatch vehicleData = [] \/
  exists id, id <> 0 /\ Route s id = (None, None).
Proof.
  intros Hrun. unfold handleVehicleData, handleMatch in Hrun.
  destruct (regexp.FindAllStringSubmatch vehicleData) as [|m ms] eqn:Hf;
    [left; reflexivity|right].
  destruct (first_match_named _ _ _ Hf)
    as (id & lat & lng & hd & spd & lck & tm & dt & st & Hnamed & _ & _ & Htm).
  cbv zeta in Hnamed.
  destruct Hnamed as (_ & _ & _ & _ & _ & _ & Gtm & _).
  assert (Hguess : forall vehicle newTime,
            storeUpdate s now order (named_groups m) vehicle newTime = Panicked ->
            exists id, id <> 0 /\ Route s id = (None, None)).
  { intros vehicle newTime. unfold storeUpdate.
    destruct (GuessRouteForVehicle s now order vehicle) as [[route [e|]]|] eqn:Hg;
      [discriminate| |].
    - repeat (match goal with
              | |- context [strconv.ParseFloat ?x] =>
                  destruct (strconv.ParseFloat x); [|discriminate]
              end).
      destruct (CreateLocation s _). discriminate.
    - intros _. unfold GuessRouteForVehicle in Hg.
      destruct (Routes s) as [routes|e]; [|discriminate].
      destruct (LocationsSince s _ _) as [updates err].
      destruct (Nat.ltb (length updates) 5); [discriminate|].
      destruct (select_min _ order) as [d k]. unfold resolve in Hg.
      destruct (Z.eqb_spec k 0) as [|Hne]; [discriminate|].
      exists k. split; [exact Hne|].
      destruct (Route s k) as [[r|] [e|]]; try discriminate. reflexivity. }
  destruct (VehicleWithTrackerID s _) as [vehicle|e];
    [|destruct e; discriminate].
  destruct (itrakTimeDate _ _) as [[newTime|e]|] eqn:Ht; cbn [run_bind] in Hrun.
  - destruct (LatestLocation s (Vehicle.ID vehicle)) as [lastUpdate|e].
    + destruct (time.Equal newTime (Location.Time lastUpdate));
        [discriminate|exact (Hguess _ _ Hrun)].
    + destruct e; try discriminate; exact (Hguess _ _ Hrun).
  - discriminate.
  - exfalso.
    apply itrakTimeDate_panics_short in Ht.
    rewrite Gtm, length_append in Ht. cbn [String.length] in Ht. lia.
Qed.

End HandleExtras.

Section FanOutExtras.
Context {St : Type} `{ModelService St}.

(** When [ms.Route] never returns a [nil] route with a [nil] error, a
    batch panics on the records without a match and on no other. *)
Lemma handleAll_panics_iff (now : Time) (order : list Z)
    (records : list string) (s : St) :
  (forall s0 id, Route s0 id <> (None, None)) ->
  handleAll s now order records = Panicked <->
  Exists (fun r => regexp.FindAllStringSubmatch r = []) records.
Proof.
  intros Hroute. revert s.
  induction records as [|r records IH]; intros s.
  - split; [discriminate | intros Hx; inversion Hx].
  - cbn [handleAll].
    destruct (handleVehicleData s now order r) as [[s1 o]|] eqn:Hr.
    + assert (Hm : regexp.FindAllStringSubmatch r <> []).
      { intros Hnil. rewrite (no_match_panics s now order r Hnil) in Hr.
        discriminate. }
      destruct (IH s1) as [Hp1 Hp2].
      destruct (handleAll s1 now order records) as [[s2 os]|] eqn:Hrest.
      * split; [discriminate|].
        intros Hx. apply Exists_cons in Hx as [Hx|Hx]; [contradiction|].
        specialize (Hp2 Hx). discriminate.
      * split; [|reflexivity].
        intros _. apply Exists_cons_tl, Hp1. reflexivity.
    + split; [|reflexivity].
      intros _. destruct (handle_panics_only s now order r Hr)
        as [Hnil|(id & _ & Hbad)].
      * apply Exists_cons_hd, Hnil.
      * destruct (Hroute s id Hbad).
Qed.

Lemma handleAll_length (now : Time) (order : list Z) (records : list string)
    (s s' : St) (outcomes : list Outcome) :
  handleAll s now order records = Done (s', outcomes) ->
  length outcomes = length records.
Proof.
  revert s outcomes. induction records as [|r records IH]; intros s outcomes.
  - intros [= <- <-]. reflexivity.
  - cbn [handleAll].
    destruct (handleVehicleData s now order r) as [[s1 o]|]; [|discriminate].
    destruct (handleAll s1 now order records) as [[s2 os]|] eqn:Hrest;
      [|discriminate].
    intros [= <- <-]. cbn [length]. rewrite (IH s1 os Hrest). reflexivity.
Qed.

(** X9.  Let [ms.Route] never return a [nil] route with a [nil] error.
    Then the handling of a batch panics if and only if a record has no
    match of the grammar; when none does, it returns one outcome for
    each record. *)
Theorem handleAll_completes_iff (now : Time) (order : list Z)
    (records : list string) (s : St) :
  (forall s0 id, Route s0 id <> (None, None)) ->
  (handleAll s now order records = Panicked <->
   Exists (fun r => regexp.FindAllStringSubmatch r = []) records) /\
  (forall s' outcomes,
     handleAll s now order records = Done (s', outcomes) ->
     length outcomes = length records).
Proof.
  intros Hroute. split.
  - apply handleAll_panics_iff, Hroute.
  - intros s' outcomes. apply handleAll_length.
Qed.

End FanOutExtras.
(** ** binary64: rounding keeps the sign *)

Lemma shr_1_nonneg (mrs : shr_record) :
  0 <= shr_m mrs -> 0 <= shr_m (shr_1 mrs).
Proof.
  destruct mrs as [m r s]. cbn [shr_m].
  destruct m as [|[p|p|]|[p|p|]]; cbn; lia.
Qed.

Lemma iter_shr_1_nonneg (p : positive) (mrs : shr_record) :
  0 <= shr_m mrs -> 0 <= shr_m (SpecFloat.iter_pos shr_1 p mrs).
Proof.
  revert mrs. induction p as [p IH|p IH|]; intros mrs Hm; cbn [SpecFloat.iter_pos].
  - apply IH, IH, shr_1_nonneg, Hm.
  - apply IH, IH, Hm.
  - apply shr_1_nonneg, Hm.
Qed.

Lemma shr_fexp_nonneg (m e : Z) (l : location) :
  0 <= m -> 0 <= shr_m (fst (shr_fexp prec emax m e l)).
Proof.
  intros Hm. unfold shr_fexp, shr.
  assert (H0 : 0 <= shr_m (shr_record_of_loc m l)).
  { destruct l as [|[]]; exact Hm. }
  destruct (_ - e) as [|p|p]; cbn [fst]; try exact H0.
  apply iter_shr_1_nonneg, H0.
Qed.

(** The rounding of a mantissa that is not negative is zero, a number or
    an infinity, of the given sign. *)
Lemma binary_round_aux_sign (sx : bool) (m e : Z) (l : location) :
  0 <= m ->
  match binary_round_aux prec emax sx m e l with
  | S754_zero s | S754_finite s _ _ | S754_infinity s => s = sx
  | S754_nan => False
  end.
Proof.
  intros Hm. unfold binary_round_aux.
  pose proof (shr_fexp_nonneg m e l Hm) as H1.
  destruct (shr_fexp prec emax m e l) as [mrs e']. cbn [fst] in H1.
  set (m1 := round_nearest_even (shr_m mrs) (loc_of_shr_record mrs)).
  assert (Hm1 : 0 <= m1).
  { unfold m1, round_nearest_even.
    destruct (loc_of_shr_record mrs) as [|[]]; try lia.
    destruct (Z.even (shr_m mrs)); lia. }
  pose proof (shr_fexp_nonneg m1 e' loc_Exact Hm1) as H2.
  destruct (shr_fexp prec emax m1 e' loc_Exact) as [mrs' e'']. cbn [fst] in H2.
  destruct (shr_m mrs') as [|p|p]; [reflexivity| |lia].
  destruct (Z.leb _ _); reflexivity.
Qed.

Lemma binary_round_sign (sx : bool) (m : positive) (e : Z) :
  match binary_round prec emax sx m e with
  | S754_zero s | S754_finite s _ _ | S754_infinity s => s = sx
  | S754_nan => False
  end.
Proof.
  unfold binary_round. destruct (shl_align _ _ _) as [mz ez].
  apply binary_round_aux_sign. lia.
Qed.

Lemma is_distance_spec (x : float) :
  is_distance x = true <->
  match Prim2SF x with
  | S754_zero s | S754_finite s _ _ | S754_infinity s => s = false
  | S754_nan => False
  end.
Proof.
  unfold is_distance. destruct (Prim2SF x) as [[]|[]| |[] m e];
    split; intros Hx; try reflexivity; try discriminate; try contradiction.
Qed.

Lemma add_is_distance (x y : float) :
  is_distance x = true -> is_distance y = true ->
  is_distance (x + y)%float = true.
Proof.
  rewrite !is_distance_spec, FloatAxioms.add_spec.
  destruct (Prim2SF x) as [sx|sx| |sx mx ex], (Prim2SF y) as [sy|sy| |sy my ey];
    intros Hx Hy; try contradiction; subst; try reflexivity.
  unfold SF64add, SFadd. cbn [cond_Zopp].
  set (ez := Z.min ex ey).
  destruct (shl_align mx ex ez) as [ax ?], (shl_align my ey ez) as [ay ?].
  cbn [fst]. change (Z.pos ax + Z.pos ay) with (Z.pos (ax + ay)).
  cbn [binary_normalize]. apply binary_round_sign.
Qed.

Lemma ltb_not_nan_l (x y : float) :
  (x <? y)%float = true -> Prim2SF x <> S754_nan.
Proof. rewrite ltb_true_iff. tauto. Qed.

Lemma sqrt_not_neg (x : float) :
  F64.not_neg (Prim2SF x) -> F64.not_neg (Prim2SF (PrimFloat.sqrt x)).
Proof.
  rewrite FloatAxioms.sqrt_spec. unfold SF64sqrt, SFsqrt.
  destruct (Prim2SF x) as [s|s| |s m e]; cbn [F64.not_neg]; intros Hs;
    subst; try exact I; try reflexivity.
  destruct (SFsqrt_core_binary prec emax (Z.pos m) e) as [[q e'] l].
  apply binary_round_aux_not_neg.
Qed.

Lemma mul_self_not_neg (x : float) : F64.not_neg (Prim2SF (x * x)%float).
Proof.
  rewrite FloatAxioms.mul_spec. unfold SF64mul, SFmul.
  destruct (Prim2SF x) as [s|s| |s m e]; cbn [F64.not_neg];
    try (destruct s; reflexivity); try exact I.
  replace (xorb s s) with false by (destruct s; reflexivity).
  apply binary_round_aux_not_neg.
Qed.

Lemma add_not_neg (x y : float) :
  F64.not_neg (Prim2SF x) -> F64.not_neg (Prim2SF y) ->
  F64.not_neg (Prim2SF (x + y)%float).
Proof.
  rewrite FloatAxioms.add_spec.
  destruct (Prim2SF x) as [sx|sx| |sx mx ex], (Prim2SF y) as [sy|sy| |sy my ey];
    cbn [F64.not_neg]; intros Hx Hy; subst; try exact I; try reflexivity.
  unfold SF64add, SFadd. cbn [cond_Zopp].
  set (ez := Z.min ex ey).
  destruct (shl_align mx ex ez) as [ax ?], (shl_align my ey ez) as [ay ?].
  cbn [fst]. change (Z.pos ax + Z.pos ay) with (Z.pos (ax + ay)).
  cbn [binary_normalize]. unfold binary_round.
  destruct (shl_align _ _ _) as [mz ez']. apply binary_round_aux_not_neg.
Qed.

Lemma not_neg_number_is_distance (x : float) :
  F64.not_neg (Prim2SF x) -> Prim2SF x <> S754_nan -> is_distance x = true.
Proof.
  rewrite is_distance_spec.
  destruct (Prim2SF x); cbn [F64.not_neg]; intros Hs Hn; congruence.
Qed.
(** ** The nearest point of a route (lines 287-295) *)

Lemma point_distance_not_neg (update : Location.t) (point : Point.t) :
  F64.not_neg (Prim2SF (point_distance update point)).
Proof.
  unfold point_distance, math.Sqrt, math.Pow2.
  apply sqrt_not_neg, add_not_neg; apply mul_self_not_neg.
Qed.

Lemma nearest_fold_cases (update : Location.t) (points : list Point.t)
    (m0 : float) :
  fold_left (nearest_step update) points m0 = m0 \/
  exists p, p ∈ points /\
    fold_left (nearest_step update) points m0 = point_distance update p /\
    (point_distance update p <? m0)%float = true.
Proof.
  revert m0. induction points as [|q points IH]; intros m0; [left; reflexivity|].
  cbn [fold_left]. unfold nearest_step at 2 4.
  destruct (point_distance update q <? m0)%float eqn:E.
  - right. destruct (IH (point_distance update q)) as [Hr|(p & Hin & Hr & Hlt)].
    + exists q. split; [left|]. split; assumption.
    + exists p. split; [right; assumption|]. split; [assumption|].
      eapply f64_ltb_trans; eassumption.
  - destruct (IH m0) as [Hr|(p & Hin & Hr & Hlt)]; [left; assumption|].
    right. exists p. split; [right; assumption|]. split; assumption.
Qed.

Lemma nearest_fold_lower (update : Location.t) (points : list Point.t)
    (m0 : float) (p : Point.t) :
  p ∈ points ->
  (point_distance update p <? fold_left (nearest_step update) points m0)%float
  = false.
Proof.
  revert m0. induction points as [|q points IH]; intros m0 Hin.
  { inversion Hin. }
  cbn [fold_left]. apply elem_of_cons in Hin as [->|Hin]; [|apply IH, Hin].
  unfold nearest_step at 2.
  destruct (point_distance update q <? m0)%float eqn:E.
  - destruct (nearest_fold_cases update points (point_distance update q))
      as [Hr|(p' & _ & Hr & Hlt)]; rewrite Hr.
    + apply f64_ltb_irrefl.
    + apply f64_ltb_asym, Hlt.
  - destruct (nearest_fold_cases update points m0) as [Hr|(p' & _ & Hr & Hlt)];
      rewrite Hr; [exact E|].
    apply ltb_false_iff. intros Hc.
    rewrite (f64_ltb_trans _ _ _ Hc Hlt) in E. discriminate.
Qed.

Lemma nearest_is_distance (update : Location.t) (points : list Point.t) :
  is_distance (nearest update points) = true.
Proof.
  unfold nearest.
  destruct (nearest_fold_cases update points math.Inf) as [Hr|(p & _ & Hr & Hlt)];
    rewrite Hr; [reflexivity|].
  apply not_neg_number_is_distance;
    [apply point_distance_not_neg | apply (ltb_not_nan_l _ _ Hlt)].
Qed.

(** X10.  The nearest distance of a sample to the points of a route is
    [+Inf] or the distance to one of the points; no point is strictly
    nearer; and it is a distance (never NaN, never negative), whatever
    the coordinates, NaN and infinities among them. *)
Theorem nearest_is_minimum (update : Location.t) (points : list Point.t) :
  (nearest update points = math.Inf \/
   exists p, p ∈ points /\ nearest update points = point_distance update p) /\
  (forall p, p ∈ points ->
     (point_distance update p <? nearest update points)%float = false) /\
  is_distance (nearest update points) = true.
Proof.
  split; [|split].
  - unfold nearest.
    destruct (nearest_fold_cases update points math.Inf)
      as [Hr|(p & Hin & Hr & _)]; [left; exact Hr|right; eauto].
  - intros p Hin. apply nearest_fold_lower, Hin.
  - apply nearest_is_distance.
Qed.

(** ** The sums (lines 269-302) *)

Lemma rd_add_all_distances (rd : gmap Z float) (id : Z) (x : float) :
  all_distances rd -> is_distance x = true -> all_distances (rd_add rd id x).
Proof.
  intros Hrd Hx k. destruct (decide (id = k)) as [->|Hne].
  - rewrite rd_get_add_same. apply add_is_distance; auto.
  - rewrite rd_get_add_other by assumption. apply Hrd.
Qed.

Lemma score_route_all_distances (update : Location.t) (rd : gmap Z float)
    (route : Route.t) :
  all_distances rd -> all_distances (score_route update rd route).
Proof.
  intros Hrd. unfold score_route. apply rd_add_all_distances.
  - destruct (negb (Route.Enabled route) || negb (Route.Active route))%bool;
      [apply rd_add_all_distances; [exact Hrd|reflexivity]|exact Hrd].
  - destruct (0.003 <? nearest update (Route.Points route))%float;
      [apply add_is_distance; [|reflexivity]|]; apply nearest_is_distance.
Qed.

Lemma rd_init_all_distances (routes : list Route.t) :
  all_distances (rd_init routes).
Proof.
  unfold rd_init.
  assert (G : forall rd, all_distances rd ->
            all_distances (fold_left
              (fun rd route => <[Route.ID route := 0%float]> rd) routes rd)).
  { induction routes as [|r routes IH]; intros rd Hrd; [exact Hrd|].
    cbn [fold_left]. apply IH. intros k. unfold rd_get.
    destruct (decide (Route.ID r = k)) as [->|Hne].
    - rewrite lookup_insert_eq. reflexivity.
    - rewrite lookup_insert_ne by assumption. apply Hrd. }
  apply G. intros k. unfold rd_get. rewrite lookup_empty. reflexivity.
Qed.

(** X11.  Every sum of distances, after any number of samples and for
    any key, is a distance: no coordinate, be it NaN or infinite, makes a
    sum NaN or negative. *)
Theorem sums_are_distances (routes : list Route.t) (updates : list Location.t)
    (id : Z) :
  is_distance (rd_get (accumulate routes updates (rd_init routes)) id) = true.
Proof.
  assert (G : forall rd, all_distances rd ->
            all_distances (accumulate routes updates rd)).
  { unfold accumulate. induction updates as [|u updates IH]; intros rd Hrd;
      [exact Hrd|].
    cbn [fold_left]. apply IH. clear IH. revert rd Hrd.
    induction routes as [|r rs IHr]; intros rd Hrd; [exact Hrd|].
    cbn [fold_left]. apply IHr, score_route_all_distances, Hrd. }
  apply G, rd_init_all_distances.
Qed.

(** ** More on GuessRouteForVehicle *)

Section GuessExtras.
Context {St : Type} `{ModelService St}.
Variables (s : St) (now : Time) (vehicle : Vehicle.t).

Let history : list Location.t * option error :=
  LocationsSince s (Vehicle.ID vehicle) (time.Add now (time.Minute * -15)).

(** X12.  Past the test on the number of samples, when every key of the
    iteration is that of a route that is disabled, inactive or without
    points, no route and no error are returned. *)
Theorem all_excluded_is_no_route (order : list Z) (routes : list Route.t)
    (updates : list Location.t) (err : option error) :
  Routes s = Ok routes ->
  history = (updates, err) ->
  (5 <= length updates)%nat ->
  (forall k, k ∈ order ->
     exists r, r ∈ routes /\ Route.ID r = k /\ excluded r) ->
  GuessRouteForVehicle s now order vehicle = Done (None, None).
Proof.
  intros HR HL Hlen Hall.
  rewrite (guess_selects s now order vehicle routes updates err HR HL Hlen).
  destruct (select_min_id (averages routes updates) order) as [->|[Hin Hgood]];
    [reflexivity|exfalso].
  destruct (Hall _ Hin) as (r & Hr & Hid & Hex).
  apply Hgood. rewrite <- Hid. apply averages_excluded; try assumption.
  destruct updates; [cbn in Hlen; lia|discriminate].
Qed.

(** X13.  Past the test on the number of samples, when one key has an
    average at most 5 and strictly below that of every other key, the
    result does not depend on the order of the iteration.  In any two
    orders that yield the key the guesser returns the same: no route and
    no error when the key is 0, and otherwise what [ms.Route] gives for
    the key, the route with the error that comes with it when there is
    a route, and the error alone when there is none. *)
Theorem unique_minimum_any_order (order1 order2 : list Z)
    (routes : list Route.t) (updates : list Location.t) (err : option error)
    (k : Z) :
  Routes s = Ok routes ->
  history = (updates, err) ->
  (5 <= length updates)%nat ->
  k ∈ order1 -> k ∈ order2 ->
  (forall j, j ∈ order1 ++ order2 -> j <> k ->
     (averages routes updates k <? averages routes updates j)%float = true) ->
  (averages routes updates k <=? 5)%float = true ->
  GuessRouteForVehicle s now order1 vehicle
  = GuessRouteForVehicle s now order2 vehicle /\
  (k = 0 ->
   GuessRouteForVehicle s now order1 vehicle = Done (None, None)) /\
  (k <> 0 -> forall r e,
     Route s k = (Some r, e) ->
     GuessRouteForVehicle s now order1 vehicle = Done (Some r, e)) /\
  (k <> 0 -> forall e,
     Route s k = (None, Some e) ->
     GuessRouteForVehicle s now order1 vehicle = Done (None, Some e)).
Proof.
  intros HR HL Hlen H1 H2 Hstrict H5.
  assert (Hrefl : (averages routes updates k <=? averages routes updates k)%float
                  = true).
  { apply leb_true_iff in H5 as (Hk & _). apply leb_true_iff. auto. }
  assert (Hone : forall order,
            k ∈ order ->
            (forall j, j ∈ order -> j <> k ->
               (averages routes updates k <? averages routes updates j)%float
               = true) ->
            GuessRouteForVehicle s now order vehicle = resolve s k).
  { intros order Hin Hs.
    rewrite (guess_selects s now order vehicle routes updates err HR HL Hlen).
    apply list_elem_of_split_l in Hin as (pre & post & -> & Hpre).
    rewrite (select_min_first (averages routes updates) pre post k);
      [reflexivity| | |exact H5].
    - intros j Hj. apply Hs; [apply elem_of_app; left; exact Hj|].
      intros ->. contradiction.
    - intros j Hj. destruct (decide (j = k)) as [->|Hne]; [exact Hrefl|].
      apply f64_ltb_leb, Hs; [|exact Hne].
      apply elem_of_app. right. right. exact Hj. }
  assert (Hg1 : GuessRouteForVehicle s now order1 vehicle = resolve s k).
  { apply Hone; [exact H1|]. intros j Hj. apply Hstrict, elem_of_app. auto. }
  assert (Hg2 : GuessRouteForVehicle s now order2 vehicle = resolve s k).
  { apply Hone; [exact H2|]. intros j Hj. apply Hstrict, elem_of_app. auto. }
  rewrite Hg1, Hg2. split; [reflexivity|].
  split; [intros ->; apply resolve_zero|]. split.
  - intros Hk r e Hr. apply resolve_route; assumption.
  - intros Hk e Hr. apply resolve_error; assumption.
Qed.

(** X14.  An error the guesser returns is the one of [ms.Routes], or the
    one of a history lookup that came with fewer than five samples, or
    the one [ms.Route] gave for the key the loop ended on; in the first
    two cases no route comes with it. *)
Theorem guess_error_origin (order : list Z) (route : option Route.t)
    (e : error) :
  GuessRouteForVehicle s now order vehicle = Done (route, Some e) ->
  (Routes s = Err e /\ route = None) \/
  (exists updates, history = (updates, Some e) /\
                   (length updates < 5)%nat /\ route = None) \/
  (exists id, id <> 0 /\ Route s id = (route, Some e)).
Proof.
  unfold GuessRouteForVehicle. fold history.
  destruct (Routes s) as [routes|e0]; [|intros [= <- <-]; left; auto].
  destruct history as [updates err] eqn:HL.
  destruct (Nat.ltb_spec (length updates) 5) as [Hlt|Hge].
  - intros [= <- ->]. right. left. exists updates. auto.
  - destruct (select_min _ order) as [d k]. unfold resolve.
    destruct (Z.eqb_spec k 0) as [|Hne]; [discriminate|].
    intros Hr. right. right. exists k. split; [exact Hne|].
    destruct (Route s k) as [[r|] [e1|]]; congruence.
Qed.

End GuessExtras.
(** ** The cycles of Run (lines 77-156 and 352-363) *)

Section CycleExtras.
Context {St : Type} `{ModelService St}.

(** A cycle whose request failed, was answered with another status
    than 200, or whose body could not be read, returns at once. *)
Lemma update_failed (u : Updater.t St) (c : Cycle) :
  fetched_ok c = false -> update u c = Done u.
Proof.
  unfold fetched_ok, cached, update.
  destruct (fetched c) as [e|code header [body|e]]; try reflexivity;
    destruct (code =? http.StatusOK); try reflexivity; discriminate.
Qed.

(** The last response after a cycle that returns. *)
Lemma update_cache (u u' : Updater.t St) (c : Cycle) :
  update u c = Done u' ->
  GetLastResponse u'
  = match cached c with
    | Some r => Some r
    | None => GetLastResponse u
    end.
Proof.
  unfold cached, update.
  destruct (fetched c) as [e|code header [body|e]];
    try (intros [= <-]; reflexivity);
    destruct (code =? http.StatusOK); cbn [negb];
    try (intros [= <-]; reflexivity).
  cbn [setLastResponse Updater.ms Updater.lastDataFeedResponse].
  destruct (handleAll _ _ _ _) as [[s1 os]|]; [|discriminate].
  destruct (DeleteLocationsBefore s1 (monthAgo c)) as [s2 r].
  intros [= <-]. reflexivity.
Qed.

(** X15.  The cycles that fetched nothing leave no trace: a run of
    cycles ends in the store and with the last response (or in the
    panic) of the run without the cycles whose request failed, was
    answered with another status than 200, or whose body could not be
    read.  Such a cycle handles no record and prunes nothing. *)
Theorem failed_cycles_leave_no_trace (u : Updater.t St) (cycles : list Cycle) :
  Run u cycles = Run u (List.filter fetched_ok cycles).
Proof.
  revert u. induction cycles as [|c cycles IH]; intros u; [reflexivity|].
  cbn [Run List.filter]. destruct (fetched_ok c) eqn:Hc.
  - cbn [Run]. destruct (update u c) as [u'|]; [|reflexivity].
    cbn [run_bind]. apply IH.
  - rewrite (update_failed u c Hc). cbn [run_bind]. apply IH.
Qed.

(** X16.  After a run of cycles that did not panic, [GetLastResponse]
    returns the response of the last cycle that was answered with
    status 200 and whose body was read, whatever the handling of its
    records and the later cycles came to; when there is no such cycle
    it returns what it returned before the run.  A response it returns
    other than that one has status 200. *)
Theorem last_response_is_last_success (u0 u : Updater.t St)
    (cycles : list Cycle) :
  Run u0 cycles = Done u ->
  GetLastResponse u
  = match last (omap cached cycles) with
    | Some r => Some r
    | None => GetLastResponse u0
    end /\
  (forall r, GetLastResponse u = Some r ->
     GetLastResponse u0 = Some r \/
     DataFeedResponse.StatusCode r = http.StatusOK).
Proof.
  intros Hrun.
  assert (Hlast : GetLastResponse u
                  = match last (omap cached cycles) with
                    | Some r => Some r
                    | None => GetLastResponse u0
                    end).
  { revert u0 Hrun. induction cycles as [|c cycles IH]; intros u0 Hrun.
    - injection Hrun as <-. reflexivity.
    - cbn [Run] in Hrun.
      destruct (update u0 c) as [u1|] eqn:Hc; [|discriminate].
      cbn [run_bind] in Hrun. rewrite (IH u1 Hrun).
      rewrite (update_cache u0 u1 c Hc).
      change (omap cached (c :: cycles))
        with (match cached c with
              | Some r => r :: omap cached cycles
              | None => omap cached cycles
              end).
      destruct (cached c) as [r|]; [|reflexivity].
      rewrite last_cons. destruct (last (omap cached cycles)); reflexivity. }
  split; [exact Hlast|].
  intros r Hr. rewrite Hlast in Hr.
  destruct (last (omap cached cycles)) as [r'|] eqn:Hl; [|left; exact Hr].
  injection Hr as ->. right.
  apply last_Some_elem_of, list_elem_of_omap in Hl as (c & _ & Hc).
  unfold cached in Hc.
  destruct (fetched c) as [e|code header [body|e]]; try discriminate.
  destruct (Z.eqb_spec code http.StatusOK) as [->|]; [|discriminate].
  injection Hc as <-. reflexivity.
Qed.

(** A cycle panics when the records of the body it fetched do. *)
Lemma update_panics (u : Updater.t St) (c : Cycle) :
  update u c = Panicked <->
  exists r, cached c = Some r /\
    handleAll (Updater.ms u) (clock c) (keys c)
      (vehiclesData (DataFeedResponse.Body r)) = Panicked.
Proof.
  unfold cached, update.
  destruct (fetched c) as [e|code header [body|e]].
  - split; [discriminate|intros (r & Hr & _); discriminate].
  - destruct (code =? http.StatusOK); cbn [negb].
    + cbn [setLastResponse Updater.ms Updater.lastDataFeedResponse].
      destruct (handleAll _ _ _ _) as [[s1 os]|] eqn:Hh.
      * destruct (DeleteLocationsBefore s1 (monthAgo c)) as [s2 r0].
        split; [discriminate|].
        intros (r & [= <-] & Hp). cbn [DataFeedResponse.Body] in Hp.
        congruence.
      * split; [|reflexivity]. intros _. eexists. split; [reflexivity|].
        exact Hh.
    + split; [discriminate|intros (r & Hr & _); discriminate].
  - destruct (code =? http.StatusOK); cbn [negb];
      (split; [discriminate|intros (r & Hr & _); discriminate]).
Qed.

(** X17.  Let [ms.Route] never return a [nil] route with a [nil] error.
    Then a run of cycles panics, which ends the process, if and only if
    one of its cycles fetched, with status 200, a body one of whose
    records has no match of the grammar. *)
Theorem run_panics_iff (u : Updater.t St) (cycles : list Cycle) :
  (forall s0 id, Route s0 id <> (None, None)) ->
  Run u cycles = Panicked <->
  Exists (fun c =>
            exists r, cached c = Some r /\
              Exists (fun record => regexp.FindAllStringSubmatch record = [])
                (vehiclesData (DataFeedResponse.Body r)))
    cycles.
Proof.
  intros Hroute. revert u.
  induction cycles as [|c cycles IH]; intros u.
  - split; [discriminate|intros Hx; inversion Hx].
  - cbn [Run]. rewrite Exists_cons.
    pose proof (update_panics u c) as Hc.
    destruct (update u c) as [u1|]; cbn [run_bind].
    + rewrite IH. split; [intros Hx; right; exact Hx|].
      intros [(r & Hr & Hbad)|Hx]; [|exact Hx].
      assert (Hp : Done u1 = Panicked); [|discriminate].
      apply Hc. exists r. split; [exact Hr|].
      apply handleAll_panics_iff; assumption.
    + split; [|reflexivity]. intros _. left.
      destruct Hc as [Hc _]. destruct (Hc eq_refl) as (r & Hr & Hp).
      exists r. split; [exact Hr|].
      exact (proj1 (handleAll_panics_iff (clock c) (keys c) _ (Updater.ms u)
                      Hroute) Hp).
Qed.

End CycleExtras.
(** ** The keys of the final loop (lines 269-272 and 308) *)

(** X18.  An order is one in which [range routeDistances] may yield the
    keys if and only if it has no key twice and its keys are the
    identifiers of the routes: routes that share an identifier share a
    key, and no other key is visited. *)
Theorem range_yields_each_route_once (routes : list Route.t)
    (updates : list Location.t) (order : list Z) :
  range_order (accumulate routes updates (rd_init routes)) order <->
  NoDup order /\
  forall id, id ∈ order <-> exists r, r ∈ routes /\ Route.ID r = id.
Proof.
  split; [apply range_order_routes|].
  intros [Hnd Hkeys]. unfold range_order.
  apply NoDup_Permutation; [exact Hnd|apply NoDup_elements|].
  intros id. rewrite Hkeys, elem_of_elements.
  rewrite dom_accumulate
    by (unfold rd_init; rewrite dom_init_loop; set_solver).
  rewrite elem_of_list_to_set, list_elem_of_fmap.
  split; intros (r & ? & ?); exists r; auto.
Qed.

(** ** kphToMPH (lines 253-255) *)

(** X19.  The conversion of a speed keeps its sign, zero and infinity
    included, and gives NaN for NaN alone. *)
Theorem kphToMPH_keeps_sign (kmh : float) :
  is_NaN (kphToMPH kmh) = is_NaN kmh /\
  sign_bit (kphToMPH kmh) = sign_bit kmh.
Proof.
  unfold is_NaN, sign_bit, kphToMPH. rewrite FloatAxioms.mul_spec.
  replace (Prim2SF 0.621371192)
    with (S754_finite false 5596814137499922 (-53)) by (vm_compute; reflexivity).
  unfold SF64mul, SFmul.
  destruct (Prim2SF kmh) as [s|s| |s m e]; cbn [xorb];
    try (rewrite xorb_false_r; split; reflexivity); [split; reflexivity|].
  rewrite xorb_false_r.
  pose proof (binary_round_aux_sign s
                (Z.pos (m * 5596814137499922)) (e + -53) loc_Exact
                ltac:(lia)) as Hs.
  destruct (binary_round_aux _ _ _ _ _ _); try contradiction;
    subst; split; reflexivity.
Qed.
(** ** Matching a record as the feed writes it (lines 57-60 and 160-165) *)

Lemma drop_append (pre rest : string) :
  strings.drop (String.length pre) (String.append pre rest) = rest.
Proof. induction pre as [|c pre IH]; [destruct rest; reflexivity|exact IH]. Qed.

Lemma strip_prefix_append (pre rest : string) :
  regexp.strip_prefix pre (String.append pre rest) = Some rest.
Proof.
  unfold regexp.strip_prefix. rewrite HasPrefix_append, drop_append.
  reflexivity.
Qed.

(** A value, then a byte outside the class or the end. *)
Lemma span_append (p : ascii -> bool) (v rest : string) :
  all_bytes p v = true ->
  match rest with
  | EmptyString => True
  | String c _ => p c = false
  end ->
  strings.span p (String.append v rest) = (v, rest).
Proof.
  intros Hv Hrest. induction v as [|c v IH].
  - change (String.append EmptyString rest) with rest.
    destruct rest as [|c r]; [reflexivity|].
    cbn [strings.span]. rewrite Hrest. reflexivity.
  - cbn [all_bytes] in Hv. apply andb_true_iff in Hv as [Hc Hv].
    change (String.append (String c v) rest)
      with (String c (String.append v rest)).
    cbn [strings.span]. rewrite Hc, (IH Hv). reflexivity.
Qed.

Lemma match_fields_written (fs : list regexp.field) (values : list string)
    (first : bool) :
  Forall (fun f => regexp.fclass f " "%char = false) fs ->
  admitted fs values ->
  regexp.match_fields first fs (write_fields first fs values)
  = Some (groups_for fs values, EmptyString).
Proof.
  intros Hfs. revert values first.
  induction Hfs as [|f fs Hf Hfs IH]; intros [|v values] first Hadm;
    cbn [admitted] in Hadm; try contradiction; [reflexivity|].
  destruct Hadm as (Hne & Hv & Hadm).
  cbn [regexp.match_fields write_fields groups_for].
  assert (Hs0 : (if first
                 then Some (String.append (if first then EmptyString else " ")
                              (String.append (regexp.flabel f)
                                 (String.append v (write_fields false fs values))))
                 else regexp.strip_prefix " "
                        (String.append (if first then EmptyString else " ")
                           (String.append (regexp.flabel f)
                              (String.append v (write_fields false fs values)))))
                = Some (String.append (regexp.flabel f)
                          (String.append v (write_fields false fs values)))).
  { destruct first; [reflexivity|apply strip_prefix_append]. }
  rewrite Hs0, strip_prefix_append.
  rewrite (span_append (regexp.fclass f) v (write_fields false fs values) Hv).
  2:{ destruct fs as [|f' fs'], values as [|v' values']; try exact I.
      exact Hf. }
  destruct v as [|c v]; [congruence|].
  rewrite (IH values false Hadm). reflexivity.
Qed.

Lemma whole_groups_for (fs : list regexp.field) (values : list string)
    (first : bool) :
  regexp.whole first (groups_for fs values) = write_fields first fs values.
Proof.
  revert values first. induction fs as [|f fs IH]; intros [|v values] first;
    try reflexivity.
  cbn [groups_for regexp.whole write_fields]. rewrite IH, append_assoc.
  reflexivity.
Qed.

Lemma find_from_skip_all (s : string) (k : nat) :
  (String.length s <= k)%nat -> regexp.find_from k s = [].
Proof.
  revert k. induction s as [|c s IH]; intros k Hk; [reflexivity|].
  cbn [String.length] in Hk. destruct k as [|k]; [lia|].
  cbn [regexp.find_from]. apply IH. lia.
Qed.

Lemma dataFields_stop_at_space :
  Forall (fun f => regexp.fclass f " "%char = false) regexp.dataFields.
Proof. repeat constructor. Qed.

(** The one match of a written record. *)
Lemma find_written_record (values : list string) :
  admitted regexp.dataFields values ->
  regexp.FindAllStringSubmatch (write_record values)
  = [write_record values :: groups_for regexp.dataFields values].
Proof.
  intros Hadm. unfold regexp.FindAllStringSubmatch.
  pose proof (match_fields_written regexp.dataFields values true
                dataFields_stop_at_space Hadm) as Hm.
  fold (write_record values) in Hm.
  assert (Hhere : regexp.match_here (write_record values)
                  = Some (write_record values
                          :: groups_for regexp.dataFields values)).
  { unfold regexp.match_here. rewrite Hm, whole_groups_for. reflexivity. }
  destruct (write_record values) as [|c s] eqn:Hw.
  { destruct values as [|v values]; [contradiction|discriminate]. }
  cbn [regexp.find_from]. rewrite Hhere. cbn [hd String.length].
  rewrite find_from_skip_all by lia. reflexivity.
Qed.

(** The named groups of a match of nine values: the unnamed groups, and
    the whole match, all land on the key [""] and hide no named one. *)
Lemma named_groups_written (w v1 v2 v3 v4 v5 v6 v7 v8 v9 : string) :
  let result :=
    named_groups
      (w :: groups_for regexp.dataFields [v1; v2; v3; v4; v5; v6; v7; v8; v9]) in
  group result "id" = String.append "Vehicle ID:" v1 /\
  group result "lat" = String.append "lat:" v2 /\
  group result "lng" = String.append "lon:" v3 /\
  group result "heading" = String.append "dir:" v4 /\
  group result "speed" = String.append "spd:" v5 /\
  group result "lock" = String.append "lck:" v6 /\
  group result "time" = String.append "time:" v7 /\
  group result "date" = String.append "date:" v8 /\
  group result "status" = String.append "trig:" v9 /\
  group result "" = v9.
Proof. cbv zeta. repeat split; vm_compute; reflexivity. Qed.

Lemma admitted_nine (values : list string) :
  admitted regexp.dataFields values ->
  exists v1 v2 v3 v4 v5 v6 v7 v8 v9,
    values = [v1; v2; v3; v4; v5; v6; v7; v8; v9].
Proof.
  unfold regexp.dataFields. intros Hadm.
  do 9 (destruct values as [|? values]; [cbn [admitted] in Hadm; tauto|]).
  destruct values; [|cbn [admitted] in Hadm; tauto].
  do 9 eexists. reflexivity.
Qed.

(** X20.  A record written with a value for each of the nine fields, not
    empty and of the bytes the pattern admits for the field, has one
    match, which is the whole record; the map of lines 162-165 gives for
    the name of each field the label with the value, and for the key
    [""], on which the whole match and the nine unnamed groups land, the
    value of the last field. *)
Theorem written_record_is_matched (values : list string) :
  admitted regexp.dataFields values ->
  exists m,
    regexp.FindAllStringSubmatch (write_record values) = [m] /\
    hd EmptyString m = write_record values /\
    (forall i f v,
       regexp.dataFields !! i = Some f -> values !! i = Some v ->
       group (named_groups m) (regexp.fname f)
       = String.append (regexp.flabel f) v) /\
    Some (group (named_groups m) EmptyString) = last values.
Proof.
  intros Hadm.
  exists (write_record values :: groups_for regexp.dataFields values).
  split; [apply find_written_record, Hadm|]. split; [reflexivity|].
  destruct (admitted_nine values Hadm)
    as (v1 & v2 & v3 & v4 & v5 & v6 & v7 & v8 & v9 & ->).
  pose proof (named_groups_written
                (write_record [v1; v2; v3; v4; v5; v6; v7; v8; v9])
                v1 v2 v3 v4 v5 v6 v7 v8 v9) as Hn.
  cbv zeta in Hn.
  destruct Hn as (G1 & G2 & G3 & G4 & G5 & G6 & G7 & G8 & G9 & G0).
  split.
  - intros i f v Hf Hv. unfold regexp.dataFields in Hf.
    do 9 (destruct i as [|i];
          [cbn in Hf, Hv; injection Hf as <-; injection Hv as <-;
           cbn [regexp.fname regexp.flabel]; assumption|]).
    cbn in Hf. discriminate.
  - rewrite G0. reflexivity.
Qed.
(** ** The fields of a created location (lines 197-249) *)

Section StoredExtras.
Context {St : Type} `{ModelService St}.
Variables (s : St) (now : Time) (order : list Z).

(** What [storeUpdate] passes to [CreateLocation]. *)
Lemma storeUpdate_fields (result : gmap string string) (vehicle : Vehicle.t)
    (newTime : Time) (s' : St) (update : Location.t) (err : option error) :
  storeUpdate s now order result vehicle newTime
  = Done (s', Created update err) ->
  exists route speedKMH,
    GuessRouteForVehicle s now order vehicle = Done (route, None) /\
    strconv.ParseFloat (strings.Replace (group result "lat") "lat:" "")
    = Ok (Location.Latitude update) /\
    strconv.ParseFloat (strings.Replace (group result "lng") "lon:" "")
    = Ok (Location.Longitude update) /\
    strconv.ParseFloat (strings.Replace (group result "heading") "dir:" "")
    = Ok (Location.Heading update) /\
    strconv.ParseFloat (strings.Replace (group result "speed") "spd:" "")
    = Ok speedKMH /\
    Location.Speed update = kphToMPH speedKMH /\
    Location.RouteID update = option_map Route.ID route.
Proof.
  unfold storeUpdate.
  destruct (GuessRouteForVehicle s now order vehicle) as [[route [e|]]|];
    [discriminate| |discriminate].
  destruct (strconv.ParseFloat
              (strings.Replace (group result "lat") "lat:" ""))
    as [latitude|e]; [|discriminate].
  destruct (strconv.ParseFloat
              (strings.Replace (group result "lng") "lon:" ""))
    as [longitude|e]; [|discriminate].
  destruct (strconv.ParseFloat
              (strings.Replace (group result "heading") "dir:" ""))
    as [heading|e]; [|discriminate].
  destruct (strconv.ParseFloat
              (strings.Replace (group result "speed") "spd:" ""))
    as [speedKMH|e]; [|discriminate].
  destruct (CreateLocation s _) as [s1 err1].
  intros [= <- <- <-]. exists route, speedKMH.
  repeat (split; [reflexivity|]). destruct route; reflexivity.
Qed.

(** X21.  The location a record is stored as has for latitude,
    longitude and heading what [strconv.ParseFloat] reads in the values
    of the fields [lat], [lon] and [dir] (removing the label removes
    nothing of a value); for speed the conversion of what it reads in
    the value of [spd]; and for route the identifier of the guessed
    route, or none when no route was guessed. *)
Theorem created_location_fields (vehicleData : string) (s' : St)
    (update : Location.t) (err : option error) :
  handleVehicleData s now order vehicleData = Done (s', Created update err) ->
  exists m ms lat lng heading speed speedKMH vehicle route,
    regexp.FindAllStringSubmatch vehicleData = m :: ms /\
    (group (named_groups m) "lat" = String.append "lat:" lat /\
     strconv.ParseFloat lat = Ok (Location.Latitude update)) /\
    (group (named_groups m) "lng" = String.append "lon:" lng /\
     strconv.ParseFloat lng = Ok (Location.Longitude update)) /\
    (group (named_groups m) "heading" = String.append "dir:" heading /\
     strconv.ParseFloat heading = Ok (Location.Heading update)) /\
    (group (named_groups m) "speed" = String.append "spd:" speed /\
     strconv.ParseFloat speed = Ok speedKMH /\
     Location.Speed update = kphToMPH speedKMH) /\
    VehicleWithTrackerID s (Location.TrackerID update) = Ok vehicle /\
    GuessRouteForVehicle s now order vehicle = Done (route, None) /\
    Location.RouteID update = option_map Route.ID route.
Proof.
  intros Hrun. unfold handleVehicleData, handleMatch in Hrun.
  destruct (regexp.FindAllStringSubmatch vehicleData) as [|m ms] eqn:Hf;
    [discriminate|].
  destruct (first_match_named _ _ _ Hf)
    as (tid & lat & lng & hd & spd & lck & tm & dt & st & Hnamed & [_ Atid]
        & (Alat & Alng & Ahd & Aspd & _) & _).
  cbv zeta in Hnamed.
  destruct Hnamed as (Gid & Glat & Glng & Ghd & Gspd & _).
  assert (Rid : strings.Replace (group (named_groups m) "id") "Vehicle ID:" ""
                = tid).
  { rewrite Gid. apply (Replace_label "V" "ehicle ID:" regexp.digit_dot tid);
      [reflexivity|exact Atid]. }
  assert (Rlat : strings.Replace (group (named_groups m) "lat") "lat:" "" = lat).
  { rewrite Glat. apply (Replace_label "l" "at:" regexp.digit_dot_dash lat);
      [reflexivity|exact Alat]. }
  assert (Rlng : strings.Replace (group (named_groups m) "lng") "lon:" "" = lng).
  { rewrite Glng. apply (Replace_label "l" "on:" regexp.digit_dot_dash lng);
      [reflexivity|exact Alng]. }
  assert (Rhd : strings.Replace (group (named_groups m) "heading") "dir:" ""
                = hd).
  { rewrite Ghd. apply (Replace_label "d" "ir:" regexp.digit_dot_dash hd);
      [reflexivity|exact Ahd]. }
  assert (Rspd : strings.Replace (group (named_groups m) "speed") "spd:" ""
                 = spd).
  { rewrite Gspd. apply (Replace_label "s" "pd:" regexp.digit_dot_dash spd);
      [reflexivity|exact Aspd]. }
  rewrite Rid in Hrun.
  destruct (VehicleWithTrackerID s tid) as [vehicle|e] eqn:Hv;
    [|destruct e; discriminate].
  assert (Hstore : storeUpdate s now order (named_groups m) vehicle
                     (Location.Time update)
                   = Done (s', Created update err) /\
                   Location.TrackerID update = tid).
  { destruct (itrakTimeDate _ _) as [[newTime|e]|]; cbn [run_bind] in Hrun;
      [|discriminate|discriminate].
    assert (Hs : storeUpdate s now order (named_groups m) vehicle newTime
                 = Done (s', Created update err)).
    { destruct (LatestLocation s (Vehicle.ID vehicle)) as [lastUpdate|e].
      - destruct (time.Equal newTime (Location.Time lastUpdate));
          [discriminate|exact Hrun].
      - destruct e; try discriminate; exact Hrun. }
    destruct (storeUpdate_effect s now order _ _ _ _ _ Hs) as (_ & <- & Htid).
    rewrite Rid in Htid. split; assumption. }
  destruct Hstore as [Hs Htid].
  destruct (storeUpdate_fields _ _ _ _ _ _ Hs)
    as (route & speedKMH & Hg & Plat & Plng & Phd & Pspd & Hspeed & Hroute).
  rewrite Rlat in Plat. rewrite Rlng in Plng. rewrite Rhd in Phd.
  rewrite Rspd in Pspd.
  exists m, ms, lat, lng, hd, spd, speedKMH, vehicle, route.
  rewrite Htid. repeat split; assumption.
Qed.

End StoredExtras.
(** ** From a written record to the stored location (lines 159-250) *)

Section WholeExtras.
Context {St : Type} `{ModelService St}.
Variables (s : St) (now : Time) (order : list Z).

(** X22.  Take a record written with values the pattern admits, whose
    identifier names a vehicle of the store, whose time and date are a
    time of the clock and a date of the calendar that is not the time of
    the vehicle's latest location, and whose latitude, longitude,
    heading and speed [strconv.ParseFloat] reads; let the guesser return
    without an error.  Then [CreateLocation] is called, on the location
    with the identifier, what was read (the speed converted), that
    instant and the guessed route. *)
Theorem written_record_is_stored (tid lat lng hd spd lck st : string)
    (year month day hour min sec : Z) (vehicle : Vehicle.t)
    (route : option Route.t) (latitude longitude heading speedKMH : float) :
  let vehicleData :=
    write_record [tid; lat; lng; hd; spd; lck;
                  itrak.time_digits hour min sec;
                  itrak.date_digits year month day; st] in
  let update :=
    Location.mk tid latitude longitude heading (kphToMPH speedKMH)
      (time.Date year month day hour min sec) (option_map Route.ID route) in
  admitted regexp.dataFields
    [tid; lat; lng; hd; spd; lck; itrak.time_digits hour min sec;
     itrak.date_digits year month day; st] ->
  itrak.valid_date year month day = true ->
  itrak.valid_clock hour min sec = true ->
  VehicleWithTrackerID s tid = Ok vehicle ->
  match LatestLocation s (Vehicle.ID vehicle) with
  | Ok lastUpdate =>
      Location.Time lastUpdate <> time.Date year month day hour min sec
  | Err e => e = ErrLocationNotFound
  end ->
  GuessRouteForVehicle s now order vehicle = Done (route, None) ->
  strconv.ParseFloat lat = Ok latitude ->
  strconv.ParseFloat lng = Ok longitude ->
  strconv.ParseFloat hd = Ok heading ->
  strconv.ParseFloat spd = Ok speedKMH ->
  handleVehicleData s now order vehicleData
  = Done (fst (CreateLocation s update),
          Created update (snd (CreateLocation s update))).
Proof.
  intros vehicleData update Hadm Hd Hc Hv Hlast Hg Plat Plng Phd Pspd.
  unfold handleVehicleData, vehicleData.
  rewrite (find_written_record _ Hadm).
  pose proof (named_groups_written
                (write_record [tid; lat; lng; hd; spd; lck;
                               itrak.time_digits hour min sec;
                               itrak.date_digits year month day; st])
                tid lat lng hd spd lck (itrak.time_digits hour min sec)
                (itrak.date_digits year month day) st) as Hn.
  cbv zeta in Hn.
  destruct Hn as (Gid & Glat & Glng & Ghd & Gspd & _ & Gtm & Gdt & _).
  unfold regexp.dataFields in Hadm. cbn [admitted regexp.fclass] in Hadm.
  destruct Hadm as (_ & Aid & _ & Alat & _ & Alng & _ & Ahd & _ & Aspd & _).
  assert (Rid : strings.Replace (String.append "Vehicle ID:" tid)
                  "Vehicle ID:" "" = tid)
    by (apply (Replace_label "V" "ehicle ID:" regexp.digit_dot tid);
        [reflexivity|exact Aid]).
  assert (Rlat : strings.Replace (String.append "lat:" lat) "lat:" "" = lat)
    by (apply (Replace_label "l" "at:" regexp.digit_dot_dash lat);
        [reflexivity|exact Alat]).
  assert (Rlng : strings.Replace (String.append "lon:" lng) "lon:" "" = lng)
    by (apply (Replace_label "l" "on:" regexp.digit_dot_dash lng);
        [reflexivity|exact Alng]).
  assert (Rhd : strings.Replace (String.append "dir:" hd) "dir:" "" = hd)
    by (apply (Replace_label "d" "ir:" regexp.digit_dot_dash hd);
        [reflexivity|exact Ahd]).
  assert (Rspd : strings.Replace (String.append "spd:" spd) "spd:" "" = spd)
    by (apply (Replace_label "s" "pd:" regexp.digit_dot_dash spd);
        [reflexivity|exact Aspd]).
  assert (Htime : itrakTimeDate (String.append "time:" (itrak.time_digits hour min sec))
                    (String.append "date:" (itrak.date_digits year month day))
                  = Done (Ok (time.Date year month day hour min sec))).
  { fold (itrak.time_field hour min sec). fold (itrak.date_field year month day).
    unfold itrakTimeDate.
    rewrite (padTime_time_field hour min sec Hc). cbn [run_bind].
    rewrite (parse_written_fields year month day hour min sec Hd Hc).
    reflexivity. }
  assert (Hstore : storeUpdate s now order
                     (named_groups
                        (write_record [tid; lat; lng; hd; spd; lck;
                                       itrak.time_digits hour min sec;
                                       itrak.date_digits year month day; st]
                         :: groups_for regexp.dataFields
                              [tid; lat; lng; hd; spd; lck;
                               itrak.time_digits hour min sec;
                               itrak.date_digits year month day; st]))
                     vehicle (time.Date year month day hour min sec)
                   = Done (fst (CreateLocation s update),
                           Created update (snd (CreateLocation s update)))).
  { unfold storeUpdate.
    rewrite Hg, Glat, Rlat, Plat, Glng, Rlng, Plng, Ghd, Rhd, Phd,
      Gspd, Rspd, Pspd, Gid, Rid.
    assert (Hopt : match route with
                   | Some r => Some (Route.ID r)
                   | None => None
                   end = option_map Route.ID route)
      by (destruct route; reflexivity).
    rewrite Hopt. fold update.
    destruct (CreateLocation s update) as [s1 err1]. reflexivity. }
  unfold handleMatch. rewrite Gid, Rid, Hv, Gtm, Gdt, Htime. cbn [run_bind].
  destruct (LatestLocation s (Vehicle.ID vehicle)) as [lastUpdate|e].
  - unfold time.Equal.
    destruct (Z.eqb_spec (time.Date year month day hour min sec)
                (Location.Time lastUpdate)) as [Heq|_];
      [congruence|exact Hstore].
  - subst e. exact Hstore.
Qed.

End WholeExtras.
(** ** The further properties on concrete feeds and stores *)

Section ExtraExamples.
Import Sample.

(** Two records of the bus, each followed by the mark. *)
Lemma vehiclesData_reads_back_witness :
  vehiclesData (feed_body [record1; record2] EmptyString) = [record1; record2].
Proof.
  apply (vehiclesData_reads_back [record1; record2] EmptyString);
    [repeat constructor; vm_compute; reflexivity | vm_compute; reflexivity].
Defined.

(** An empty body, on a store with a location of the bus of New Year's
    Day: no record is handled, and the pruning removes that location. *)
Lemma update_without_mark_witness :
  vehiclesData EmptyString = [] /\
  update
    (Updater.mk (store [east] [stored t1; stored (time.Date 2020 1 1 0 0 0)])
       None)
    (Cycles.at_now (Response 200 [] (Ok EmptyString)))
  = Done (Updater.mk (store [east] [stored t1])
            (Some (DataFeedResponse.mk EmptyString 200 []))).
Proof.
  destruct (update_without_mark
              (Updater.mk
                 (store [east] [stored t1; stored (time.Date 2020 1 1 0 0 0)])
                 None)
              (Cycles.at_now (Response 200 [] (Ok EmptyString)))
              [] EmptyString eq_refl eq_refl) as [Hv Hu].
  split; [exact Hv|]. exact (eq_trans Hu eq_refl).
Defined.

(** Five minutes and seven seconds past midnight, written [time:507]. *)
Lemma itrakTimeDate_reads_written_time_witness :
  itrak.time_field 0 5 7 = "time:507" /\
  itrakTimeDate (itrak.time_field 0 5 7) (itrak.date_field 2020 2 29)
  = Done (Ok (time.Date 2020 2 29 0 5 7)).
Proof.
  split; [vm_compute; reflexivity|].
  apply (itrakTimeDate_reads_written_time 2020 2 29 0 5 7);
    vm_compute; reflexivity.
Defined.

(** Half past nine and fifteen seconds, written with five digits. *)
Lemma padTime_pads_once_witness :
  String.length "time:093015" = Nat.max 11 (String.length "time:93015") /\
  "time:093015"
  = String.append (strings.take 5 "time:93015")
      (String.append
         (zeros (String.length "time:093015" - String.length "time:93015"))
         (strings.drop 5 "time:93015")) /\
  padTime "time:093015" = Done "time:093015".
Proof.
  apply (padTime_pads_once "time:93015" "time:093015").
  vm_compute. reflexivity.
Defined.

(** A record of the bus ten seconds after its latest location. *)
Lemma created_location_is_known_and_new_witness :
  exists m ms vehicle,
    regexp.FindAllStringSubmatch record2 = m :: ms /\
    Location.TrackerID (stored t2) <> EmptyString /\
    all_bytes regexp.digit_dot (Location.TrackerID (stored t2)) = true /\
    group (named_groups m) "id"
    = String.append "Vehicle ID:" (Location.TrackerID (stored t2)) /\
    VehicleWithTrackerID (store [east] [stored t1])
      (Location.TrackerID (stored t2)) = Ok vehicle /\
    itrakTimeDate (group (named_groups m) "time") (group (named_groups m) "date")
    = Done (Ok (Location.Time (stored t2))) /\
    forall lastUpdate,
      LatestLocation (store [east] [stored t1]) (Vehicle.ID vehicle)
      = Ok lastUpdate ->
      Location.Time lastUpdate <> Location.Time (stored t2).
Proof.
  apply (created_location_is_known_and_new (store [east] [stored t1]) now [1]
           record2 (store [east] [stored t2; stored t1]) (stored t2) None).
  vm_compute. reflexivity.
Defined.

(** The in-memory store never answers a route lookup with neither a
    route nor an error; a batch of two records and one that is no
    record. *)
Lemma handleAll_completes_iff_witness :
  (handleAll (store [east] []) now [1] [record1; "lost"; record2] = Panicked <->
   Exists (fun r => regexp.FindAllStringSubmatch r = [])
     [record1; "lost"; record2]) /\
  (forall s' outcomes,
     handleAll (store [east] []) now [1] [record1; "lost"; record2]
     = Done (s', outcomes) ->
     length outcomes = length [record1; "lost"; record2]).
Proof.
  apply (handleAll_completes_iff now [1] [record1; "lost"; record2]
           (store [east] [])).
  intros s0 id. cbn [Route MemStore_ModelService]. unfold MemStore.route.
  destruct (find _ _); discriminate.
Defined.

(** A disabled route, an inactive one and one without points. *)
Lemma all_excluded_is_no_route_witness :
  GuessRouteForVehicle (store [closed; idle; blank] five_seen) now [4; 5; 6] bus
  = Done (None, None).
Proof.
  apply (all_excluded_is_no_route (store [closed; idle; blank] five_seen) now
           bus [4; 5; 6] [closed; idle; blank] five_seen None);
    [reflexivity | vm_compute; reflexivity | cbn; lia |].
  intros k Hk.
  apply elem_of_cons in Hk as [->|Hk]; [exists closed|].
  { split; [apply elem_of_cons; left; reflexivity|].
    split; [reflexivity|left; reflexivity]. }
  apply elem_of_cons in Hk as [->|Hk]; [exists idle|].
  { split; [apply elem_of_cons; right; apply elem_of_cons; left; reflexivity|].
    split; [reflexivity|right; left; reflexivity]. }
  apply elem_of_cons in Hk as [->|Hk]; [exists blank|inversion Hk].
  split; [do 2 (apply elem_of_cons; right); apply elem_of_cons; left; reflexivity|].
  split; [reflexivity|right; right; reflexivity].
Defined.

(** East at the samples and North a degree away, in both orders: East
    is returned. *)
Lemma unique_minimum_any_order_witness :
  GuessRouteForVehicle (store [east; north] five_seen) now [1; 3] bus
  = GuessRouteForVehicle (store [east; north] five_seen) now [3; 1] bus /\
  GuessRouteForVehicle (store [east; north] five_seen) now [1; 3] bus
  = Done (Some east, None).
Proof.
  destruct (unique_minimum_any_order (store [east; north] five_seen) now bus
              [1; 3] [3; 1] [east; north] five_seen None 1)
    as (Heq & _ & Hroute & _);
    [reflexivity | vm_compute; reflexivity | cbn; lia
    | apply elem_of_cons; left; reflexivity
    | apply elem_of_cons; right; apply elem_of_cons; left; reflexivity
    | | vm_compute; reflexivity |].
  - intros j Hj Hne. cbn [app] in Hj.
    repeat (apply elem_of_cons in Hj as [->|Hj]; [try congruence|]);
      try (vm_compute; reflexivity).
    inversion Hj.
  - split; [exact Heq|]. apply Hroute; [discriminate | reflexivity].
Defined.

(** The database is down: the error is that of [ms.Routes]. *)
Lemma guess_error_origin_witness :
  (Routes tt = Err Outage.down /\ @None Route.t = None) \/
  (exists updates,
     LocationsSince tt (Vehicle.ID bus) (time.Add now (time.Minute * -15))
     = (updates, Some Outage.down) /\
     (length updates < 5)%nat /\ @None Route.t = None) \/
  (exists id, id <> 0 /\ Route tt id = (None, Some Outage.down)).
Proof.
  apply (guess_error_origin tt now bus [] None Outage.down).
  reflexivity.
Defined.

(** The values of the first record of the bus. *)
Lemma written_record_is_matched_witness :
  write_record ["1831394611"; "42.7301"; "-73.6764"; "90"; "35.5"; "1";
                "93015"; "02292020"; "4"] = record1 /\
  exists m,
    regexp.FindAllStringSubmatch
      (write_record ["1831394611"; "42.7301"; "-73.6764"; "90"; "35.5"; "1";
                     "93015"; "02292020"; "4"]) = [m] /\
    hd EmptyString m
    = write_record ["1831394611"; "42.7301"; "-73.6764"; "90"; "35.5"; "1";
                    "93015"; "02292020"; "4"] /\
    (forall i f v,
       regexp.dataFields !! i = Some f ->
       ["1831394611"; "42.7301"; "-73.6764"; "90"; "35.5"; "1";
        "93015"; "02292020"; "4"] !! i = Some v ->
       group (named_groups m) (regexp.fname f)
       = String.append (regexp.flabel f) v) /\
    Some (group (named_groups m) EmptyString)
    = last ["1831394611"; "42.7301"; "-73.6764"; "90"; "35.5"; "1";
            "93015"; "02292020"; "4"].
Proof.
  split; [vm_compute; reflexivity|].
  apply (written_record_is_matched
           ["1831394611"; "42.7301"; "-73.6764"; "90"; "35.5"; "1";
            "93015"; "02292020"; "4"]).
  unfold regexp.dataFields. cbn [admitted].
  repeat (split; [discriminate || (vm_compute; reflexivity)|]). exact I.
Defined.

(** The record of the bus ten seconds after its latest location, and
    the location it is stored as. *)
Lemma created_location_fields_witness :
  exists m ms lat lng heading speed speedKMH vehicle route,
    regexp.FindAllStringSubmatch record2 = m :: ms /\
    (group (named_groups m) "lat" = String.append "lat:" lat /\
     strconv.ParseFloat lat = Ok (Location.Latitude (stored t2))) /\
    (group (named_groups m) "lng" = String.append "lon:" lng /\
     strconv.ParseFloat lng = Ok (Location.Longitude (stored t2))) /\
    (group (named_groups m) "heading" = String.append "dir:" heading /\
     strconv.ParseFloat heading = Ok (Location.Heading (stored t2))) /\
    (group (named_groups m) "speed" = String.append "spd:" speed /\
     strconv.ParseFloat speed = Ok speedKMH /\
     Location.Speed (stored t2) = kphToMPH speedKMH) /\
    VehicleWithTrackerID (store [east] [stored t1])
      (Location.TrackerID (stored t2)) = Ok vehicle /\
    GuessRouteForVehicle (store [east] [stored t1]) now [1] vehicle
    = Done (route, None) /\
    Location.RouteID (stored t2) = option_map Route.ID route.
Proof.
  apply (created_location_fields (store [east] [stored t1]) now [1]
           record2 (store [east] [stored t2; stored t1]) (stored t2) None).
  vm_compute. reflexivity.
Defined.

(** The same record, written from its values, with 09:30:25 written
    [93025]. *)
Lemma written_record_is_stored_witness :
  write_record ["1831394611"; "42.7301"; "-73.6764"; "90"; "35.5"; "1";
                itrak.time_digits 9 30 25; itrak.date_digits 2020 2 29; "4"]
  = record2 /\
  handleVehicleData (store [east] [stored t1]) now [1]
    (write_record ["1831394611"; "42.7301"; "-73.6764"; "90"; "35.5"; "1";
                   itrak.time_digits 9 30 25; itrak.date_digits 2020 2 29; "4"])
  = Done (store [east] [stored t2; stored t1], Created (stored t2) None).
Proof.
  split; [vm_compute; reflexivity|].
  refine (eq_trans
            (written_record_is_stored (store [east] [stored t1]) now [1]
               "1831394611" "42.7301" "-73.6764" "90" "35.5" "1" "4"
               2020 2 29 9 30 25 bus None
               42.7301%float (-73.6764)%float 90%float 35.5%float
               _ _ _ _ _ _ _ _ _ _) _).
  - unfold regexp.dataFields. cbn [admitted].
    repeat (split; [discriminate || (vm_compute; reflexivity)|]). exact I.
  - vm_compute. reflexivity.
  - vm_compute. reflexivity.
  - vm_compute. reflexivity.
  - vm_compute. discriminate.
  - vm_compute. reflexivity.
  - vm_compute. reflexivity.
  - vm_compute. reflexivity.
  - vm_compute. reflexivity.
  - vm_compute. reflexivity.
  - reflexivity.
Defined.

(** A failed request, the first record of the bus, and an answer with
    status 503: the last response is the second one. *)
Lemma last_response_is_last_success_witness :
  GetLastResponse
    (Updater.mk (store [east] [stored t1]) (Some Cycles.served_response))
  = match last (omap cached [Cycles.failed; Cycles.served; Cycles.refused]) with
    | Some r => Some r
    | None => GetLastResponse Cycles.fresh
    end /\
  (forall r,
     GetLastResponse
       (Updater.mk (store [east] [stored t1]) (Some Cycles.served_response))
     = Some r ->
     GetLastResponse Cycles.fresh = Some r \/
     DataFeedResponse.StatusCode r = http.StatusOK).
Proof.
  apply (last_response_is_last_success Cycles.fresh
           (Updater.mk (store [east] [stored t1]) (Some Cycles.served_response))
           [Cycles.failed; Cycles.served; Cycles.refused]).
  vm_compute. reflexivity.
Defined.

(** The in-memory store, and a run whose second body holds no record of
    the grammar before its mark. *)
Lemma run_panics_iff_witness :
  Run Cycles.fresh [Cycles.served; Cycles.garbled; Cycles.served]
  = Panicked <->
  Exists (fun c =>
            exists r, cached c = Some r /\
              Exists (fun record => regexp.FindAllStringSubmatch record = [])
                (vehiclesData (DataFeedResponse.Body r)))
    [Cycles.served; Cycles.garbled; Cycles.served].
Proof.
  apply (run_panics_iff Cycles.fresh
           [Cycles.served; Cycles.garbled; Cycles.served]).
  intros s0 id. cbn [Route MemStore_ModelService]. unfold MemStore.route.
  destruct (find _ _); discriminate.
Defined.

End ExtraExamples.
